(** * Flood-claims retrieval: gauge/claim spatial join and nearest-gauge query

    A shallow embedding of the two pipelines of the repository:

    - [Batch]: [scripts/gage_claims_50km.py], the spatial join of claim
      points with gauge footprints (one radius query per footprint vertex,
      per-vertex grouping of the matched claims by loss date), and
      [Ingest], the cleaning of the claims table before it;
    - [Interactive]: [scripts/final.py], the centre computation of
      [load_gage_data], [find_closest_gauges] and [create_claims_timeline],
      and [App], the runs of its [main];
    - [Extract]: the filters of [scripts/goodclames_extract.py].

    Numbers read from the CSV tables are decimal literals and are kept as
    rationals ([Q]); the haversine metric of the spatial index is stated over
    the reals, into which the coordinates are injected by [Q2R].  Rounding of
    binary floating point is not modelled. *)

From Stdlib Require Import ZArith QArith Qabs Qreals Reals Lra Lia Psatz.
From stdpp Require Import base option list sorting gmap strings.

Set Default Proof Using "Type".

(** ** Values of table cells and of row dictionaries *)

(** A [Timestamp] is a pandas timestamp, as its count of nanoseconds since
    the epoch.  A [Date] is the text ['%Y-%m-%d'] of a calendar day, kept as
    the number of that day: for four-digit years the text order and the day
    order agree. *)
Definition Timestamp := Z.
Definition Date := Z.

Definition ns_per_day : Z := 86400000000000.

(** [ts.strftime('%Y-%m-%d')]: the time of day is dropped. *)
Definition strftime_ymd (t : Timestamp) : Date := (t `div` ns_per_day)%Z.

(** A Python value that the text of a cell can denote, as far as the
    readers of the coordinate columns tell values apart: a list or tuple of
    numbers, a single number, or any other value [v], kept as what
    [[float(x) for x in v]] yields ([None] when it raises). *)
Inductive pyvalue :=
| PSeq (l : list Q)
| PNum (q : Q)
| POther (floats : option (list Q)).

(** The text of a cell as a Python expression: a literal, which [eval] and
    [ast.literal_eval] evaluate to the same value, or any other text, which
    [ast.literal_eval] refuses and [eval] evaluates ([None] when that
    raises). *)
Inductive pytext :=
| Literal (v : pyvalue)
| Expression (v : option pyvalue).

(** A cell of a table read from CSV text, or a value passed in its place.
    A text cell carries, next to its characters, what they denote.  [CSeq]
    stands for a list, tuple or array of numbers. *)
Inductive cell :=
| CNaN
| CNum (q : Q)
| CStr (s : string) (e : pytext)
| CSeq (l : list Q).

(** A value of a row dictionary of the batch output: a cell taken over from
    the gauge table, or one of the two lists the join adds. *)
Inductive value :=
| VCell (c : cell)
| VDates (l : list Date)
| VCounts (l : list nat).

(** ** The metric of the spatial index *)

Module Geo.

Local Open Scope R_scope.

(** [np.radians] *)
Definition radians (deg : R) : R := deg * PI / 180.

(** The haversine metric of scikit-learn's [BallTree]: of each point, the
    first coordinate is taken as the latitude and the second as the
    longitude, both in radians; the result is the central angle. *)
Definition haversine_metric (x y : R * R) : R :=
  2 * asin (sqrt ((sin ((x.1 - y.1) / 2))² +
                  cos x.1 * cos y.1 * (sin ((x.2 - y.2) / 2))²)).

Definition earth_radius_km : R := 6371.

(** The great-circle distance in kilometres between two places given by
    latitude and longitude in degrees. *)
Definition haversine_km (lat1 lon1 lat2 lon2 : R) : R :=
  earth_radius_km *
  haversine_metric (radians lat1, radians lon1) (radians lat2, radians lon2).

(** [tree.query_radius(q, r)[0]] on the tree built from the rows [pts]: the
    positions of the rows within [r] of [q] under the tree's metric, here in
    ascending order. *)
Definition in_ball (q : R * R) (r : R) (p : R * R) : bool :=
  if Rle_dec (haversine_metric p q) r then true else false.

Fixpoint query_from (i : nat) (pts : list (R * R)) (q : R * R) (r : R)
  : list nat :=
  match pts with
  | [] => []
  | p :: rest =>
      if in_ball q r p then i :: query_from (S i) rest q r
      else query_from (S i) rest q r
  end.

Definition query_radius (tree : list (R * R)) (q : R * R) (r : R) : list nat :=
  query_from 0 tree q r.

End Geo.

(** ** The batch spatial join ([scripts/gage_claims_50km.py]) *)

Module Batch.

(** A row of the claims table after the cleaning steps at the start of
    [main] (rows without coordinates or without a readable loss date are
    dropped there): the coordinates are floats, the loss date a timestamp. *)
Record Claim := {
  longitude : Q;
  latitude : Q;
  dateOfLoss : Timestamp
}.

(** [eval(coord)] on the text of a cell; [None] when it raises. *)
Definition eval (e : pytext) : option pyvalue :=
  match e with
  | Literal v => Some v
  | Expression v => v
  end.

(** [[float(v) for v in vals]]; [None] when it raises, as on a number,
    over which there is no iteration. *)
Definition floats (vals : pyvalue) : option (list Q) :=
  match vals with
  | PSeq l => Some l
  | PNum _ => None
  | POther l => l
  end.

Definition parse_coord (coord : cell) : list Q :=
  match coord with
  | CStr _ e =>
      match eval e ≫= floats with
      | Some vals => vals
      | None => []
      end
  | CSeq l => l
  | _ => []
  end.

(** [np.radians(claims[['longitude', 'latitude']].to_numpy())]: one row per
    claim, the longitude in the first column. *)
Definition claim_points_rad (claims : list Claim) : list (R * R) :=
  map (fun c => (Geo.radians (Q2R (longitude c)), Geo.radians (Q2R (latitude c))))
      claims.

(** [BallTree(claim_points_rad, metric='haversine')]: the tree answers
    queries over the rows it was built from, and is kept here as the list
    of these rows.  The constructor refuses an array without rows with a
    [ValueError], here [None]. *)
Definition BallTree (X : list (R * R)) : option (list (R * R)) :=
  match X with
  | [] => None
  | _ :: _ => Some X
  end.

(** [50 / 6371.0] *)
Definition radius : R := (50 / 6371)%R.

(** [claims.iloc[ind]] *)
Definition iloc (claims : list Claim) (ind : list nat) : list Claim :=
  omap (fun i => claims !! i) ind.

(** [groupby(key).size()]: the distinct keys in ascending order, each with
    the number of rows that carry it. *)
Fixpoint count_key (t : Timestamp) (groups : list (Timestamp * nat))
  : list (Timestamp * nat) :=
  match groups with
  | [] => [(t, 1%nat)]
  | (k, c) :: rest =>
      if (t <? k)%Z then (t, 1%nat) :: (k, c) :: rest
      else if (t =? k)%Z then (k, S c) :: rest
      else (k, c) :: count_key t rest
  end.

Definition groupby_size (keys : list Timestamp) : list (Timestamp * nat) :=
  fold_left (fun groups t => count_key t groups) keys [].

(** [matched_claims.groupby('dateOfLoss').size()] for the claims at the
    positions [ind], as the list of its index rendered by
    [strftime('%Y-%m-%d')] and the list of its values. *)
Definition date_counts (claims : list Claim) (ind : list nat)
  : list Date * list nat :=
  let matched_claims := iloc claims ind in
  let groups := groupby_size (map dateOfLoss matched_claims) in
  (map (fun kc => strftime_ymd kc.1) groups, map snd groups).

(** The body of the loop over [zip(lon_arr, lat_arr)], on the pair
    [(gage_dates, gage_counts)]. *)
Definition vertex_step (claims : list Claim) (tree : list (R * R))
    (acc : list Date * list nat) (v : Q * Q) : list Date * list nat :=
  let gage_point_rad := (Geo.radians (Q2R v.1), Geo.radians (Q2R v.2)) in
  let ind := Geo.query_radius tree gage_point_rad radius in
  if (0 <? length ind)%nat then
    let dc := date_counts claims ind in
    (acc.1 ++ dc.1, acc.2 ++ dc.2)
  else acc.

Definition gage_dates_counts (claims : list Claim) (tree : list (R * R))
    (lon_arr lat_arr : list Q) : list Date * list nat :=
  fold_left (vertex_step claims tree) (zip lon_arr lat_arr) ([], []).

(** One iteration of the loop over the gauge table.  [None] stands for the
    [KeyError] of a table without a [longitude] or [latitude] column. *)
Definition gage_row (claims : list Claim) (tree : list (R * R))
    (gage : gmap string cell) : option (gmap string value) :=
  lon ← gage !! "longitude";
  lat ← gage !! "latitude";
  let lon_arr := parse_coord lon in
  let lat_arr := parse_coord lat in
  let dc := gage_dates_counts claims tree lon_arr lat_arr in
  let row := VCell <$> gage in
  let row := <["dates" := VDates dc.1]> row in
  let row := <["num_claims" := VCounts dc.2]> row in
  Some row.

(** [main], from the cleaned claims and the gauge table to [output_rows].
    [None] stands for the run that raises: in [BallTree], before the first
    record is read, when no claim is left after the cleaning, or in the
    loop, at a record without one of the coordinate columns. *)
Definition main (claims : list Claim) (gages : list (gmap string cell))
  : option (list (gmap string value)) :=
  tree ← BallTree (claim_points_rad claims);
  mapM (gage_row claims tree) gages.

(** *** Notions used to state the properties of the join *)

(** The positions of the claims that the query of one vertex returns, the
    tree being the one built from the rows of the claims. *)
Definition vertex_matches (claims : list Claim) (v : Q * Q) : list nat :=
  Geo.query_radius (claim_points_rad claims)
    (Geo.radians (Q2R v.1), Geo.radians (Q2R v.2)) radius.

(** The dates and counts that one vertex contributes. *)
Definition vertex_block (claims : list Claim) (v : Q * Q)
  : list Date * list nat :=
  date_counts claims (vertex_matches claims v).

(** The expansion as the specification words it: the matched positions of
    all vertices of the footprint are united, each position kept once, and
    the united set is grouped by date. *)
Definition union_matches (claims : list Claim) (vs : list (Q * Q)) : list nat :=
  remove_dups (concat (map (vertex_matches claims) vs)).

Definition expand_spec (claims : list Claim) (vs : list (Q * Q))
  : list Date * list nat :=
  date_counts claims (union_matches claims vs).

(** The (date, count) pairs that one vertex contributes. *)
Definition vertex_pairs (claims : list Claim) (v : Q * Q) : list (Date * nat) :=
  map (fun kc => (strftime_ymd kc.1, kc.2))
      (groupby_size (map dateOfLoss (iloc claims (vertex_matches claims v)))).

(** The number of claims that an output pair of lists reports for a date. *)
Fixpoint count_on (d : Date) (dates : list Date) (counts : list nat) : nat :=
  match dates, counts with
  | d' :: dates', c :: counts' =>
      (if (d' =? d)%Z then c else 0) + count_on d dates' counts'
  | _, _ => 0
  end.

(** The number of claims among [cs] whose loss falls on the day [d]. *)
Definition claims_on (d : Date) (cs : list Claim) : nat :=
  length (List.filter (fun c => (strftime_ymd (dateOfLoss c) =? d)%Z) cs).

End Batch.

(** ** The interactive query ([scripts/final.py]) *)

Module Interactive.

(** A float of the query side: a number, [np.inf] or [np.nan]. *)
Inductive float :=
| Fin (q : Q)
| PInf
| NaN.

(** A row of the persisted table once its list cells are parsed. *)
Record summary := {
  gauge_id : cell;
  longitude : list Q;
  latitude : list Q;
  dates : list Date;
  num_claims : list Z;
  discharge : cell;
  sqmi : cell
}.

(** A row of the data frame of [load_gage_data]; [distance_km] is the column
    that [find_closest_gauges] adds ([None] while the column is absent). *)
Record row := {
  base : summary;
  center_lon : float;
  center_lat : float;
  total_claims : Z;
  num_events : nat;
  distance_km : option float
}.

Record Event := {
  e_gauge_id : cell;
  e_date : Timestamp;
  e_claims : Z;
  e_discharge : cell;
  e_distance_km : float
}.

(** [ast.literal_eval] on a cell of the persisted table, which holds the
    cells of the gauge table as the batch run wrote them; [None] when it
    raises, as it does on a cell that is no text and on a text that is no
    literal.  A [summary] stands for a row whose [longitude] and [latitude]
    cells it reads as lists of numbers. *)
Definition literal_eval (c : cell) : option pyvalue :=
  match c with
  | CStr _ (Literal v) => Some v
  | _ => None
  end.

Definition sum_Q (x : list Q) : Q := foldr Qplus 0%Q x.

(** [np.mean(x)] on a list that is not empty, as the exact mean: the
    rounding of the sum and of the quotient is left out. *)
Definition mean (x : list Q) : Q :=
  Qred (sum_Q x / inject_Z (Z.of_nat (length x))).

(** [np.mean(x) if x else np.nan] *)
Definition center (x : list Q) : float :=
  match x with
  | [] => NaN
  | _ :: _ => Fin (mean x)
  end.

Definition load_row (s : summary) : row :=
  {| base := s;
     center_lon := center (longitude s);
     center_lat := center (latitude s);
     total_claims := foldr Z.add 0%Z (num_claims s);
     num_events := length (dates s);
     distance_km := None |}.

(** [load_gage_data], from the parsed table on: the added columns. *)
Definition load_gage_data (table : list summary) : list row :=
  map load_row table.

Definition isna (x : float) : bool :=
  match x with
  | NaN => true
  | _ => false
  end.

(** [df.dropna(subset=['center_lat', 'center_lon'])] *)
Definition dropna_centers (df : list row) : list row :=
  List.filter (fun r => negb (isna (center_lat r)) && negb (isna (center_lon r))) df.

(** [a <= b] on floats: false as soon as one side is NaN. *)
Definition fle (a b : float) : bool :=
  match a, b with
  | NaN, _ | _, NaN => false
  | Fin x, Fin y => Qle_bool x y
  | Fin _, PInf => true
  | PInf, PInf => true
  | PInf, Fin _ => false
  end.

(** The order of [sort_values]: ascending, NaN last. *)
Definition sort_le (a b : float) : bool :=
  match a, b with
  | _, NaN => true
  | NaN, _ => false
  | _, _ => fle a b
  end.

(** Reading the column [distance_km] of a row that has it. *)
Definition distance_col (r : row) : float :=
  match distance_km r with
  | Some d => d
  | None => NaN
  end.

Definition set_distance (r : row) (d : float) : row :=
  {| base := base r;
     center_lon := center_lon r;
     center_lat := center_lat r;
     total_claims := total_claims r;
     num_events := num_events r;
     distance_km := Some d |}.

(** [sort_values('distance_km')], as an insertion sort.  This is how numpy
    sorts a short array (up to sixteen entries), and it keeps rows of equal
    distance in their order; on longer arrays the library does not fix the
    order among equal distances, and no property below relies on it. *)
Fixpoint insert_row (r : row) (sorted : list row) : list row :=
  match sorted with
  | [] => [r]
  | s :: rest =>
      if sort_le (distance_col r) (distance_col s) then r :: s :: rest
      else s :: insert_row r rest
  end.

Definition sort_values (df : list row) : list row :=
  foldr insert_row [] df.

Section Finder.

(** [geodesic(p, q).kilometers] of geopy, on (latitude, longitude) pairs;
    [None] when it raises. *)
Variable geodesic : Q * Q → Q * Q → option Q.

(** The body of the loop that fills [distances]; geopy refuses points
    whose coordinates are not finite. *)
Definition row_distance (target_lat target_lon : Q) (r : row) : float :=
  match center_lat r, center_lon r with
  | Fin clat, Fin clon =>
      match geodesic (target_lat, target_lon) (clat, clon) with
      | Some distance => Fin distance
      | None => PInf
      end
  | _, _ => PInf
  end.

Definition find_closest_gauges (df : option (list row))
    (target_lat target_lon : Q) (max_distance_km : float) : list row :=
  match df with
  | None => []
  | Some [] => []
  | Some df =>
      let df_clean := dropna_centers df in
      match df_clean with
      | [] => []
      | _ =>
          let distances := map (row_distance target_lat target_lon) df_clean in
          let df_clean := zip_with set_distance df_clean distances in
          let nearby_gauges :=
            List.filter (fun r => fle (distance_col r) max_distance_km) df_clean in
          sort_values nearby_gauges
      end
  end.

End Finder.

(** [pd.to_datetime(date)] on a ['%Y-%m-%d'] text: midnight of that day. *)
Definition to_datetime (date : Date) : Timestamp := (date * ns_per_day)%Z.

Definition make_event (r : row) (dc : Date * Z) : Event :=
  {| e_gauge_id := gauge_id (base r);
     e_date := to_datetime dc.1;
     e_claims := dc.2;
     e_discharge := discharge (base r);
     e_distance_km := default (Fin 0) (distance_km r) |}.

(** Truth value of a list *)
Definition truthy {A} (l : list A) : bool :=
  match l with
  | [] => false
  | _ :: _ => true
  end.

(** The body of the loop over the rows, on [all_events]. *)
Definition timeline_step (all_events : list Event) (r : row) : list Event :=
  if truthy (dates (base r)) && truthy (num_claims (base r)) then
    fold_left (fun events dc => events ++ [make_event r dc])
              (zip (dates (base r)) (num_claims (base r))) all_events
  else all_events.

Definition create_claims_timeline (df : list row) : list Event :=
  fold_left timeline_step df [].

(** *** Notions used to state the properties of the query *)

(** The rows within the search radius, with their distance, in the order of
    the table: what [find_closest_gauges] hands to the sort. *)
Definition within_radius (geodesic : Q * Q → Q * Q → option Q)
    (df : list row) (target_lat target_lon : Q) (max_distance_km : float)
  : list row :=
  List.filter (fun r => fle (distance_col r) max_distance_km)
    (map (fun r => set_distance r (row_distance geodesic target_lat target_lon r))
         (dropna_centers df)).

(** A row is not farther away than another one. *)
Definition by_distance (a b : row) : Prop :=
  fle (distance_col a) (distance_col b) = true.

(** The order of gauge identifiers: numeric on numbers, lexical on texts. *)
Definition gauge_id_leb (a b : cell) : bool :=
  match a, b with
  | CNum x, CNum y => Qle_bool x y
  | CStr s _, CStr t _ => String.leb s t
  | _, _ => false
  end.

(** Rows at equal distance appear in the order of their gauge identifiers. *)
Definition ties_by_gauge_id (out : list row) : Prop :=
  forall (i j : nat) (ri rj : row),
    (i < j)%nat -> out !! i = Some ri -> out !! j = Some rj ->
    by_distance ri rj -> by_distance rj ri ->
    gauge_id_leb (gauge_id (base ri)) (gauge_id (base rj)) = true.

(** The events of one row, one for each pair of [zip(dates, num_claims)]. *)
Definition row_events (r : row) : list Event :=
  map (make_event r) (zip (dates (base r)) (num_claims (base r))).

End Interactive.

(** ** Concrete inputs used in the examples below *)

Module Scenario.

Import Batch.

(** Day numbers of 2005-08-29, 2010-05-02 and 2020-05-01. *)
Definition day_2005_08_29 : Date := 13024%Z.
Definition day_2010_05_02 : Date := 14731%Z.
Definition day_2020_05_01 : Date := 18383%Z.

Definition midnight (d : Date) : Timestamp := (d * ns_per_day)%Z.

(** A claim on the meridian 90 degrees west at latitude 30 north, and a
    footprint vertex on the same meridian five degrees further north. *)
Definition claim_gulf : Claim :=
  {| longitude := (-90)%Q; latitude := 30%Q; dateOfLoss := midnight day_2005_08_29 |}.

Definition vertex_north : Q * Q := (-90, 35)%Q.

(** A claim at latitude 60 north and a footprint vertex on the same
    latitude, 0.6 degree of longitude to the west. *)
Definition claim_sixty : Claim :=
  {| longitude := (-1494 # 10)%Q; latitude := 60%Q;
     dateOfLoss := midnight day_2010_05_02 |}.

Definition vertex_sixty : Q * Q := (-150, 60)%Q.

(** A claim near Nashville and a footprint of two vertices 0.1 degree of
    longitude apart, on the claim's latitude, one on either side of it. *)
Definition claim_nashville : Claim :=
  {| longitude := (-8675 # 100)%Q; latitude := (361 # 10)%Q;
     dateOfLoss := midnight day_2020_05_01 |}.

Definition lon_two : list Q := [(-868 # 10)%Q; (-867 # 10)%Q].
Definition lat_two : list Q := [(361 # 10)%Q; (361 # 10)%Q].

Definition gage_two : gmap string cell :=
  {[ "gauge_id" := CNum 3431500;
     "longitude" := CStr "[-86.8, -86.7]" (Literal (PSeq lon_two));
     "latitude" := CStr "[36.1, 36.1]" (Literal (PSeq lat_two));
     "discharge" := CNum 12000;
     "sqmi" := CNum 13 ]}.

(** A claim that lies on a footprint vertex. *)
Definition claim_on_vertex : Claim :=
  {| longitude := (-8675 # 100)%Q; latitude := (3615 # 100)%Q;
     dateOfLoss := midnight day_2020_05_01 |}.

(** Two claims one degree of longitude apart, the western one the later,
    and a footprint with one vertex at each. *)
Definition claim_west : Claim :=
  {| longitude := (-868 # 10)%Q; latitude := (361 # 10)%Q;
     dateOfLoss := midnight day_2020_05_01 |}.

Definition claim_east : Claim :=
  {| longitude := (-858 # 10)%Q; latitude := (361 # 10)%Q;
     dateOfLoss := midnight day_2010_05_02 |}.

Definition lon_apart : list Q := [(-868 # 10)%Q; (-858 # 10)%Q].

(** A footprint whose latitude list is one entry short. *)
Definition lat_short : list Q := [(361 # 10)%Q].

Definition gage_short : gmap string cell :=
  {[ "gauge_id" := CNum 3431500;
     "longitude" := CStr "[-86.8, -86.7]" (Literal (PSeq lon_two));
     "latitude" := CStr "[36.1]" (Literal (PSeq lat_short));
     "discharge" := CNum 12000;
     "sqmi" := CNum 13 ]}.

(** The output rows expected for [gage_two] and [gage_short] when the only
    claim is [claim_nashville]. *)
Definition row_two : gmap string value :=
  <["num_claims" := VCounts [1%nat; 1%nat]]>
    (<["dates" := VDates [day_2020_05_01; day_2020_05_01]]> (VCell <$> gage_two)).

Definition row_short : gmap string value :=
  <["num_claims" := VCounts [1%nat]]>
    (<["dates" := VDates [day_2020_05_01]]> (VCell <$> gage_short)).

(** Two gauges whose footprints have the same centre, the one with the
    larger identifier first in the table, and a target at that centre. *)
Definition lat_box : list Q := [(361 # 10)%Q; (362 # 10)%Q].

Definition summary_upstream : Interactive.summary :=
  {| Interactive.gauge_id := CNum 3431700;
     Interactive.longitude := lon_two;
     Interactive.latitude := lat_box;
     Interactive.dates := [day_2020_05_01];
     Interactive.num_claims := [3%Z];
     Interactive.discharge := CNum 12000;
     Interactive.sqmi := CNum 13 |}.

Definition summary_downstream : Interactive.summary :=
  {| Interactive.gauge_id := CNum 3431500;
     Interactive.longitude := lon_two;
     Interactive.latitude := lat_box;
     Interactive.dates := [day_2005_08_29; day_2010_05_02];
     Interactive.num_claims := [1%Z; 2%Z];
     Interactive.discharge := CNum 15000;
     Interactive.sqmi := CNum 21 |}.

Definition table_ties : list Interactive.summary :=
  [summary_upstream; summary_downstream].

Definition target_lat : Q := (3615 # 100)%Q.
Definition target_lon : Q := (-8675 # 100)%Q.

(** A footprint without vertices, as a record of the gauge table and as a
    row of the persisted table. *)
Definition gage_no_vertices : gmap string cell :=
  {[ "gauge_id" := CNum 3431900;
     "longitude" := CStr "[]" (Literal (PSeq []));
     "latitude" := CStr "[]" (Literal (PSeq []));
     "discharge" := CNum 800;
     "sqmi" := CNum 2 ]}.

Definition summary_no_vertices : Interactive.summary :=
  {| Interactive.gauge_id := CNum 3431900;
     Interactive.longitude := [];
     Interactive.latitude := [];
     Interactive.dates := [];
     Interactive.num_claims := [];
     Interactive.discharge := CNum 800;
     Interactive.sqmi := CNum 2 |}.

(** A row whose only vertex has a latitude beyond the pole. *)
Definition summary_bad_latitude : Interactive.summary :=
  {| Interactive.gauge_id := CNum 3432000;
     Interactive.longitude := [(-868 # 10)%Q];
     Interactive.latitude := [95%Q];
     Interactive.dates := [day_2020_05_01];
     Interactive.num_claims := [1%Z];
     Interactive.discharge := CNum 700;
     Interactive.sqmi := CNum 5 |}.

(** A stand-in for geopy's [geodesic] on the inputs of the examples, where
    its result is known: it raises on a latitude outside [-90, 90], and two
    equal points are at distance zero.  It gives no distance elsewhere. *)
Definition valid_latitude (lat : Q) : bool :=
  Qle_bool (-90) lat && Qle_bool lat 90.

Definition geodesic_known (p q : Q * Q) : option Q :=
  if valid_latitude p.1 && valid_latitude q.1 then
    if Qeq_bool p.1 q.1 && Qeq_bool p.2 q.2 then Some 0%Q else None
  else None.

End Scenario.

(** ** The cleaning of the claims table ([main], lines 23 to 27) *)

Module Ingest.

Import Batch.

(** A cell of the column [dateOfLoss] as read from the CSV text: missing, or
    a text. *)
Inductive date_cell :=
| DNaN
| DText (s : string).

(** A row of the claims table as read; the coordinate columns hold numbers
    or are missing. *)
Record RawClaim := {
  raw_longitude : option Q;
  raw_latitude : option Q;
  raw_dateOfLoss : date_cell
}.






Section ToDatetime.

(** The reading of date texts by pandas.  [guess_datetime_format s] is the
    format that the library infers from the text [s] ([None] when it finds
    none), and [parse_text format s] is the timestamp that it reads from
    [s], under [format] when there is one and with its general date parser
    otherwise ([None] when the text cannot be read so).  A library that
    reads every text on its own never finds a format. *)
Variable guess_datetime_format : string → option string.
Variable parse_text : option string → string → option Timestamp.





(** *** Notions used to state the properties of the cleaning *)


(** The claim that a raw row becomes under a format, when it has both
    coordinates and a date that can be read. *)
Definition usable (format : option string) (c : RawClaim) : option Claim :=
  match raw_longitude c, raw_latitude c, raw_dateOfLoss c with
  | Some lon, Some lat, DText s =>
      t ← parse_text format s;
      Some {| longitude := lon; latitude := lat; dateOfLoss := t |}
  | _, _, _ => None
  end.

End ToDatetime.

(** The number of rows counted under the key [k] by a list of groups. *)
Definition counted (k : Timestamp) (groups : list (Timestamp * nat)) : nat :=
  sum_list_with (fun kc : Timestamp * nat => if (kc.1 =? k)%Z then kc.2 else 0%nat)
                groups.

End Ingest.

(** ** One run of the application ([main] of [scripts/final.py]) *)

Module App.

Import Interactive.

(** [nearby_gauges['total_claims'].sum()] and
    [nearby_gauges['num_events'].sum()], the metrics "Total Claims" and
    "Total Events". *)
Definition total_claims_sum (nearby_gauges : list row) : Z :=
  foldr Z.add 0%Z (total_claims <$> nearby_gauges).

Definition num_events_sum (nearby_gauges : list row) : nat :=
  sum_list (num_events <$> nearby_gauges).

(** What the section "Claims Timeline" shows: nothing, the note that no
    flood events were found, or the chart and the table of the events. *)
Inductive timeline_view :=
| NoTimeline
| NoEvents
| Events (timeline_df : list Event).

Definition timeline_section (nearby_gauges : list row) : timeline_view :=
  if (0 <? total_claims_sum nearby_gauges)%Z then
    match create_claims_timeline nearby_gauges with
    | [] => NoEvents
    | timeline_df => Events timeline_df
    end
  else NoTimeline.

(** The results that a run displays (the average discharge, the formatted
    table and the drawing of the charts and of the map, which only render
    these values, are left out). *)
Record results := {
  shown_target : Q * Q;
  shown_radius : Z;
  shown_gauges : list row;
  shown_total_claims : Z;
  shown_total_events : nat;
  shown_timeline : timeline_view;
  shown_map : bool
}.

Record view := {
  load_error : bool;
  no_gauges_warning : bool;
  shown : option results
}.

(** [st.session_state]: absent, or the gauges and the target coordinates
    stored by a search. *)
Definition session := option (list row * (Q * Q)).

(** The part of [main] under [if 'nearby_gauges' in st.session_state]; the
    radius shown is the value of the slider in this run. *)
Definition display (max_distance : Z) (stored : list row * (Q * Q)) : results :=
  {| shown_target := stored.2;
     shown_radius := max_distance;
     shown_gauges := stored.1;
     shown_total_claims := total_claims_sum stored.1;
     shown_total_events := num_events_sum stored.1;
     shown_timeline := timeline_section stored.1;
     shown_map := (0 <? length stored.1)%nat |}.

(** A row whose added columns are those that [load_gage_data] computes
    from its lists. *)
Definition loaded (r : row) : Prop :=
  total_claims r = foldr Z.add 0%Z (num_claims (base r))
  /\ num_events r = length (dates (base r)).

Section Main.

Variable geodesic : Q * Q → Q * Q → option Q.

(** One run of the script: [df] is what [load_gage_data] returned, the next
    three arguments are the values of the widgets, [button] tells whether
    the search button was pressed, and [session_state] is the state kept
    from the runs before. *)
Definition main (df : option (list row)) (target_lat target_lon : Q)
    (max_distance : Z) (button : bool) (session_state : session)
  : session * view :=
  match df with
  | None =>
      (session_state,
       {| load_error := true; no_gauges_warning := false; shown := None |})
  | Some _ =>
      let searched :=
        if button then
          let nearby_gauges :=
            find_closest_gauges geodesic df target_lat target_lon
                                (Fin (inject_Z max_distance)) in
          match nearby_gauges with
          | [] => (session_state, true)
          | _ :: _ => (Some (nearby_gauges, (target_lat, target_lon)), false)
          end
        else (session_state, false) in
      (searched.1,
       {| load_error := false;
          no_gauges_warning := searched.2;
          shown := display max_distance <$> searched.1 |})
  end.

(** The widget values of one run. *)
Record run := {
  run_df : option (list row);
  run_lat : Q;
  run_lon : Q;
  run_max_distance : Z;
  run_button : bool
}.

(** The session state after a sequence of runs. *)
Definition session_after (runs : list run) (session_state : session) : session :=
  fold_left (fun st r =>
               (main (run_df r) (run_lat r) (run_lon r) (run_max_distance r)
                     (run_button r) st).1)
            runs session_state.

(** What holds of a stored result: it is the answer, not empty, of a search
    that one of the runs made, kept with the target of that search. *)
Definition stored_by (runs : list run) (session_state : session) : Prop :=
  from_option
    (fun stored : list row * (Q * Q) =>
       stored.1 <> [] /\
       exists r, r ∈ runs /\ run_button r = true /\
         stored.1 = find_closest_gauges geodesic (run_df r) (run_lat r) (run_lon r)
                      (Fin (inject_Z (run_max_distance r))) /\
         stored.2 = (run_lat r, run_lon r))
    True session_state.

End Main.

End App.

(** ** Filters on the claims table ([scripts/goodclames_extract.py]) *)

Module Extract.

(** A row of the claims table: the two coordinate columns, a number or
    missing, and the other columns. *)
Record claim_row := {
  latitude : option Q;
  longitude : option Q;
  columns : gmap string cell
}.

(** [df.dropna(subset=['latitude', 'longitude'])] *)
Definition dropna_coords (df : list claim_row) : list claim_row :=
  List.filter (fun r => bool_decide (is_Some (latitude r))
                        && bool_decide (is_Some (longitude r))) df.



(** The mask of the bounding-box filter for one row. *)
Definition in_box (min_lat max_lat min_lon max_lon : Q) (r : claim_row) : bool :=
  match latitude r, longitude r with
  | Some lat, Some lon =>
      Qle_bool min_lat lat && Qle_bool lat max_lat
      && Qle_bool min_lon lon && Qle_bool lon max_lon
  | _, _ => false
  end.

Section Filters.

(** What [load_good_claims()] returns: the table of the file, or [None] when
    it raises because the file is not there. *)
Variable load_good_claims : option (list claim_row).

(** [if df is None: df = load_good_claims()] *)
Definition or_load (df : option (list claim_row)) : option (list claim_row) :=
  match df with
  | None => load_good_claims
  | Some df => Some df
  end.



Definition get_claims_by_bounding_box (df : option (list claim_row))
    (min_lat max_lat min_lon max_lon : Q) : option (list claim_row) :=
  df ← or_load df;
  let df_clean := dropna_coords df in
  Some (List.filter (in_box min_lat max_lat min_lon max_lon) df_clean).

End Filters.

End Extract.

(** ** Further concrete inputs *)

Module MoreInputs.

Import Scenario.






(** The row of the persisted table that holds the lists written for
    [gage_two]. *)
Definition summary_two : Interactive.summary :=
  {| Interactive.gauge_id := CNum 3431500;
     Interactive.longitude := lon_two;
     Interactive.latitude := lat_two;
     Interactive.dates := [day_2020_05_01; day_2020_05_01];
     Interactive.num_claims := [1%Z; 1%Z];
     Interactive.discharge := CNum 12000;
     Interactive.sqmi := CNum 13 |}.

(** A target far from the centre of the two gauges of [table_ties]: the
    stand-in for [geodesic] gives no distance for it. *)
Definition far_lat : Q := 40%Q.
Definition far_lon : Q := (-100)%Q.

(** Two rows of the claims table for the filters, the second without a
    longitude. *)
Definition row_nashville : Extract.claim_row :=
  {| Extract.latitude := Some (361 # 10)%Q;
     Extract.longitude := Some (-8675 # 100)%Q;
     Extract.columns := {[ "state" := CStr "TN" (Expression None) ]} |}.

Definition row_no_longitude : Extract.claim_row :=
  {| Extract.latitude := Some (361 # 10)%Q;
     Extract.longitude := None;
     Extract.columns := {[ "state" := CStr "TN" (Expression None) ]} |}.

End MoreInputs.

(** * Properties *)

(** ** The metric along a line of constant second coordinate *)

Section GeoFacts.

Local Open Scope R_scope.

Lemma PI_gt_3 : 3 < PI.
Proof. pose proof PI2_3_2. lra. Qed.

Lemma asin_abs_sin (t : R) :
  - (PI / 2) <= t <= PI / 2 -> asin (Rabs (sin t)) = Rabs t.
Proof.
  intros [Hlo Hhi].
  destruct (Rle_dec 0 t) as [Hpos | Hneg].
  - rewrite (Rabs_pos_eq t) by assumption.
    rewrite Rabs_pos_eq.
    + apply asin_sin. lra.
    + apply sin_ge_0; lra.
  - assert (Ht : t < 0) by lra.
    rewrite (Rabs_left t) by assumption.
    rewrite <- (Rabs_Ropp (sin t)), <- sin_neg.
    rewrite Rabs_pos_eq.
    + apply asin_sin. lra.
    + apply sin_ge_0; lra.
Qed.

(** Two points with the same second coordinate are as far apart as their
    first coordinates differ. *)
Lemma haversine_metric_same_snd (a b v : R) :
  Rabs (a - b) <= PI ->
  Geo.haversine_metric (a, v) (b, v) = Rabs (a - b).
Proof.
  intros Hab. unfold Geo.haversine_metric. cbn [fst snd].
  replace ((v - v) / 2) with 0 by lra.
  rewrite sin_0.
  replace ((sin ((a - b) / 2))² + cos a * cos b * 0²) with ((sin ((a - b) / 2))²)
    by (unfold Rsqr; ring).
  rewrite sqrt_Rsqr_abs.
  rewrite asin_abs_sin.
  - unfold Rdiv. rewrite Rabs_mult.
    rewrite (Rabs_pos_eq (/ 2)) by lra. lra.
  - unfold Rabs in Hab. destruct (Rcase_abs (a - b)); lra.
Qed.

(** Two points whose common first coordinate has cosine zero are at
    distance zero, whatever their second coordinates. *)
Lemma haversine_metric_cos_zero (u a b : R) :
  cos u = 0 -> Geo.haversine_metric (u, a) (u, b) = 0.
Proof.
  intros Hu. unfold Geo.haversine_metric. cbn [fst snd].
  replace ((u - u) / 2) with 0 by lra.
  rewrite sin_0, Hu.
  replace (0² + 0 * 0 * (sin ((a - b) / 2))²) with 0 by (unfold Rsqr; ring).
  rewrite sqrt_0, asin_0. ring.
Qed.

(** Two points with the same first coordinate, of cosine at least zero. *)
Lemma haversine_metric_same_fst (u a b : R) :
  0 <= cos u ->
  Geo.haversine_metric (u, a) (u, b) = 2 * asin (cos u * Rabs (sin ((a - b) / 2))).
Proof.
  intros Hu. unfold Geo.haversine_metric. cbn [fst snd].
  replace ((u - u) / 2) with 0 by lra.
  rewrite sin_0.
  replace (0² + cos u * cos u * (sin ((a - b) / 2))²)
    with ((cos u * sin ((a - b) / 2))²) by (unfold Rsqr; ring).
  rewrite sqrt_Rsqr_abs, Rabs_mult, (Rabs_pos_eq (cos u)) by assumption.
  reflexivity.
Qed.

(** The arc sine of a number below the sine of an acute angle is below
    that angle. *)
Lemma asin_le_of_le_sin (y u : R) :
  0 <= y -> y <= sin u -> 0 <= u <= PI / 2 -> asin y <= u.
Proof.
  intros Hy Hyu [Hu0 Hu1].
  assert (Hsin1 : sin u <= 1) by apply SIN_bound.
  assert (Hy1 : -1 <= y <= 1) by lra.
  pose proof (asin_bound y) as [Hlo Hhi].
  destruct (Rle_dec (asin y) u) as [Hle | Hgt]; [exact Hle |].
  assert (Hlt : u < asin y) by lra.
  apply sin_increasing_1 in Hlt; try lra.
  rewrite sin_asin in Hlt by exact Hy1. lra.
Qed.

(** Half the sine of an angle is at most the sine of half the angle. *)
Lemma half_sin_le_sin_half (t : R) :
  0 <= t <= PI -> / 2 * sin t <= sin (t / 2).
Proof.
  intros [Ht0 Ht1].
  replace t with (2 * (t / 2)) at 1 by lra.
  rewrite sin_2a.
  assert (Hs : 0 <= sin (t / 2)) by (apply sin_ge_0; lra).
  assert (Hc : cos (t / 2) <= 1) by apply COS_bound.
  nra.
Qed.

Lemma in_ball_true (q p : R * R) (r : R) :
  Geo.haversine_metric p q <= r -> Geo.in_ball q r p = true.
Proof. intros H. unfold Geo.in_ball. destruct (Rle_dec _ _); [done | contradiction]. Qed.

Lemma in_ball_false (q p : R * R) (r : R) :
  r < Geo.haversine_metric p q -> Geo.in_ball q r p = false.
Proof. intros H. unfold Geo.in_ball. destruct (Rle_dec _ _); [lra | done]. Qed.

Lemma in_ball_iff (q p : R * R) (r : R) :
  Geo.in_ball q r p = true <-> Geo.haversine_metric p q <= r.
Proof. unfold Geo.in_ball. destruct (Rle_dec _ _); split; intros; done. Qed.

Lemma elem_of_query_from (i j : nat) (pts : list (R * R)) (q : R * R) (r : R) :
  j ∈ Geo.query_from i pts q r <->
  (i <= j)%nat /\ exists p, pts !! (j - i)%nat = Some p /\ Geo.in_ball q r p = true.
Proof.
  revert i. induction pts as [| p0 pts IH]; intros i; cbn [Geo.query_from].
  - split; [by intros ?%not_elem_of_nil | by intros (_ & p & ? & _)].
  - assert (Hrest : j ∈ Geo.query_from (S i) pts q r <->
                    (i < j)%nat /\ exists p, (p0 :: pts) !! (j - i)%nat = Some p /\
                                             Geo.in_ball q r p = true).
    { rewrite IH. split.
      - intros (Hle & p & Hp & Hb). split; [lia |]. exists p. split; [| done].
        replace (j - i)%nat with (S (j - S i)) by lia. done.
      - intros (Hlt & p & Hp & Hb). split; [lia |]. exists p. split; [| done].
        replace (j - i)%nat with (S (j - S i)) in Hp by lia. done. }
    destruct (Geo.in_ball q r p0) eqn:Hb0.
    + rewrite elem_of_cons, Hrest. split.
      * intros [-> | (Hlt & p & Hp & Hb)].
        -- split; [lia |]. exists p0. by rewrite Nat.sub_diag.
        -- split; [lia |]. eauto.
      * intros (Hle & p & Hp & Hb).
        destruct (decide (j = i)) as [-> | Hne]; [by left |].
        right. split; [lia |]. eauto.
    + rewrite Hrest. split.
      * intros (Hlt & p & Hp & Hb). split; [lia |]. eauto.
      * intros (Hle & p & Hp & Hb).
        destruct (decide (j = i)) as [-> | Hne].
        -- rewrite Nat.sub_diag in Hp. cbn in Hp. congruence.
        -- split; [lia |]. eauto.
Qed.

(** The query is exact for the metric of the tree: it returns the position
    of a row if and only if the row is within the radius under that metric. *)
Lemma elem_of_query_radius (j : nat) (tree : list (R * R)) (q : R * R) (r : R) :
  j ∈ Geo.query_radius tree q r <->
  exists p, tree !! j = Some p /\ Geo.haversine_metric p q <= r.
Proof.
  unfold Geo.query_radius. rewrite elem_of_query_from, Nat.sub_0_r.
  setoid_rewrite in_ball_iff. split; [by intros (_ & H) | intros H; split; [lia | done]].
Qed.

End GeoFacts.


(** ** The join of one footprint *)

Section Join.

Import Batch.

Implicit Types (claims : list Claim) (ind : list nat) (v : Q * Q).
Implicit Types (groups : list (Timestamp * nat)) (t k : Timestamp).

Lemma iloc_nil claims : iloc claims [] = [].
Proof. reflexivity. Qed.

Lemma date_counts_nil claims : date_counts claims [] = ([], []).
Proof. reflexivity. Qed.

(** The guard on an empty query result changes nothing: appending the
    block of a vertex without matches appends nothing. *)
Lemma vertex_step_block claims (acc : list Date * list nat) v :
  vertex_step claims (claim_points_rad claims) acc v =
  (acc.1 ++ (vertex_block claims v).1, acc.2 ++ (vertex_block claims v).2).
Proof.
  unfold vertex_step, vertex_block, vertex_matches.
  destruct (Geo.query_radius _ _ _) as [| i ind] eqn:Hq.
  - cbn. rewrite !app_nil_r. by destruct acc.
  - reflexivity.
Qed.

Lemma fold_vertex_step claims (vs : list (Q * Q)) (acc : list Date * list nat) :
  fold_left (vertex_step claims (claim_points_rad claims)) vs acc =
  (acc.1 ++ concat (map (fun v => (vertex_block claims v).1) vs),
   acc.2 ++ concat (map (fun v => (vertex_block claims v).2) vs)).
Proof.
  revert acc. induction vs as [| v vs IH]; intros acc.
  - cbn. rewrite !app_nil_r. by destruct acc.
  - cbn [fold_left map concat]. rewrite IH, vertex_step_block.
    cbn [fst snd]. by rewrite <- !app_assoc.
Qed.

Lemma gage_dates_counts_blocks claims (lon_arr lat_arr : list Q) :
  gage_dates_counts claims (claim_points_rad claims) lon_arr lat_arr =
  (concat (map (fun v => (vertex_block claims v).1) (zip lon_arr lat_arr)),
   concat (map (fun v => (vertex_block claims v).2) (zip lon_arr lat_arr))).
Proof. unfold gage_dates_counts. by rewrite fold_vertex_step. Qed.

End Join.

(** ** Grouping by loss date *)

Section GroupBy.

Import Batch.

Implicit Types (groups : list (Timestamp * nat)) (t k : Timestamp).
Implicit Types (keys : list Timestamp).

Local Ltac split_compare :=
  repeat match goal with
    | |- context [(?a <? ?b)%Z] => destruct (Z.ltb_spec a b)
    | |- context [(?a =? ?b)%Z] => destruct (Z.eqb_spec a b)
    end.

(** Counting a key adds one row to the total. *)
Lemma count_key_total t groups :
  sum_list (count_key t groups).*2 = S (sum_list groups.*2).
Proof.
  induction groups as [| [k c] rest IH]; [done |].
  cbn [count_key]. split_compare; cbn in *; lia.
Qed.

Lemma groupby_size_from_total keys groups :
  sum_list (fold_left (fun g t => count_key t g) keys groups).*2 =
  (sum_list groups.*2 + length keys)%nat.
Proof.
  revert groups. induction keys as [| t keys IH]; intros groups; cbn.
  - lia.
  - rewrite IH, count_key_total. lia.
Qed.

Lemma groupby_size_total keys :
  sum_list (groupby_size keys).*2 = length keys.
Proof. unfold groupby_size. by rewrite groupby_size_from_total. Qed.

(** The order in which two keys are counted does not matter. *)
Lemma count_key_comm t k groups :
  count_key t (count_key k groups) = count_key k (count_key t groups).
Proof.
  induction groups as [| [k' c] rest IH].
  - cbn. split_compare; try lia; try done. by subst.
  - cbn [count_key]. split_compare; cbn [count_key]; split_compare;
      try lia; try done; try (by subst); try (by rewrite IH).
Qed.

Lemma groupby_size_from_perm keys keys' :
  keys ≡ₚ keys' ->
  forall groups,
    fold_left (fun g t => count_key t g) keys groups =
    fold_left (fun g t => count_key t g) keys' groups.
Proof.
  induction 1 as [| t l l' _ IH | t k l | l l' l'' _ IH1 _ IH2]; intros groups; cbn.
  - done.
  - apply IH.
  - by rewrite count_key_comm.
  - by rewrite IH1, IH2.
Qed.

(** The groups depend on which keys occur how often, not on their order. *)
Lemma groupby_size_perm keys keys' :
  keys ≡ₚ keys' -> groupby_size keys = groupby_size keys'.
Proof. intros H. unfold groupby_size. by apply groupby_size_from_perm. Qed.

(** The keys of the groups ascend strictly. *)
Lemma count_key_HdRel k t groups :
  (k < t)%Z -> HdRel Z.lt k groups.*1 -> HdRel Z.lt k (count_key t groups).*1.
Proof.
  intros Hkt Hhd. destruct groups as [| [k' c] rest]; cbn.
  - by constructor.
  - inversion Hhd; subst. split_compare; cbn; by constructor.
Qed.

Lemma count_key_sorted t groups :
  Sorted Z.lt groups.*1 -> Sorted Z.lt (count_key t groups).*1.
Proof.
  induction groups as [| [k c] rest IH]; intros Hs; cbn [count_key].
  - cbn. by repeat constructor.
  - inversion Hs as [| ? ? Hrest Hhd]; subst.
    split_compare; cbn.
    + constructor; [done |]. by constructor.
    + subst. by constructor.
    + constructor; [by apply IH |]. apply count_key_HdRel; [lia | done].
Qed.

Lemma groupby_size_from_sorted keys groups :
  Sorted Z.lt groups.*1 ->
  Sorted Z.lt (fold_left (fun g t => count_key t g) keys groups).*1.
Proof.
  revert groups. induction keys as [| t keys IH]; intros groups Hs; cbn.
  - done.
  - by apply IH, count_key_sorted.
Qed.

Lemma groupby_size_sorted keys : Sorted Z.lt (groupby_size keys).*1.
Proof. apply groupby_size_from_sorted. constructor. Qed.

Lemma strftime_ymd_mono (t k : Timestamp) :
  (t <= k)%Z -> (strftime_ymd t <= strftime_ymd k)%Z.
Proof. intros H. unfold strftime_ymd, ns_per_day. by apply Z.div_le_mono. Qed.

End GroupBy.

(** ** The dates and counts of one query result *)

Section DateCounts.

Import Batch.

Implicit Types (claims : list Claim) (ind : list nat) (v : Q * Q) (d : Date).
Implicit Types (groups : list (Timestamp * nat)).

Lemma date_counts_length claims ind :
  length (date_counts claims ind).1 = length (date_counts claims ind).2.
Proof. unfold date_counts. cbn. by rewrite !length_map. Qed.

Lemma date_counts_sorted claims ind : Sorted Z.le (date_counts claims ind).1.
Proof.
  unfold date_counts. cbn [fst].
  pose proof (groupby_size_sorted (map dateOfLoss (iloc claims ind))) as Hs.
  replace (map (fun kc : Timestamp * nat => strftime_ymd kc.1)
               (groupby_size (map dateOfLoss (iloc claims ind))))
    with (strftime_ymd <$> (groupby_size (map dateOfLoss (iloc claims ind))).*1)
    by (by rewrite <- list_fmap_compose).
  eapply Sorted_fmap; [| exact Hs].
  intros t k Htk. apply strftime_ymd_mono. lia.
Qed.

Lemma date_counts_total claims ind :
  sum_list (date_counts claims ind).2 = length (iloc claims ind).
Proof.
  unfold date_counts. cbn [snd].
  change (map snd ?l) with (l.*2).
  by rewrite groupby_size_total, length_map.
Qed.

(** The result does not depend on the order in which the index lists the
    matched positions. *)
Lemma date_counts_perm claims ind ind' :
  ind ≡ₚ ind' -> date_counts claims ind = date_counts claims ind'.
Proof.
  intros Hp. unfold date_counts, iloc.
  assert (Hk : map dateOfLoss (omap (fun i => claims !! i) ind) ≡ₚ
               map dateOfLoss (omap (fun i => claims !! i) ind')).
  { apply Permutation_map. by rewrite Hp. }
  by rewrite (groupby_size_perm _ _ Hk).
Qed.

Lemma iloc_length claims ind :
  Forall (fun j => (j < length claims)%nat) ind ->
  length (iloc claims ind) = length ind.
Proof.
  unfold iloc. induction 1 as [| j ind Hj _ IH]; [done |].
  cbn. destruct (lookup_lt_is_Some_2 claims j Hj) as [c Hc].
  rewrite Hc. cbn. by rewrite IH.
Qed.

Lemma query_from_bounds (i : nat) (pts : list (R * R)) (q : R * R) (r : R) :
  Forall (fun j => (i <= j < i + length pts)%nat) (Geo.query_from i pts q r).
Proof.
  revert i. induction pts as [| p pts IH]; intros i; cbn; [constructor |].
  assert (Hrest : Forall (fun j => (i <= j < i + S (length pts))%nat)
                         (Geo.query_from (S i) pts q r)).
  { eapply Forall_impl; [apply IH |]. cbn. intros; lia. }
  destruct (Geo.in_ball q r p); [constructor; [lia | done] | done].
Qed.

Lemma vertex_matches_bounds claims v :
  Forall (fun j => (j < length claims)%nat) (vertex_matches claims v).
Proof.
  unfold vertex_matches, Geo.query_radius.
  eapply Forall_impl; [apply query_from_bounds |].
  cbn. intros j Hj. unfold claim_points_rad in Hj. rewrite length_map in Hj. lia.
Qed.

Lemma vertex_block_total claims v :
  sum_list (vertex_block claims v).2 = length (vertex_matches claims v).
Proof.
  unfold vertex_block. rewrite date_counts_total.
  apply iloc_length, vertex_matches_bounds.
Qed.

Lemma count_on_app d (ds1 ds2 : list Date) (cs1 cs2 : list nat) :
  length ds1 = length cs1 ->
  count_on d (ds1 ++ ds2) (cs1 ++ cs2) = (count_on d ds1 cs1 + count_on d ds2 cs2)%nat.
Proof.
  revert cs1. induction ds1 as [| d1 ds1 IH]; intros [| c1 cs1] Hlen;
    try discriminate; [done |].
  cbn in *. rewrite IH by lia. lia.
Qed.

Lemma count_on_count_key d (t : Timestamp) groups :
  count_on d (map (fun kc => strftime_ymd kc.1) (count_key t groups))
             (map snd (count_key t groups)) =
  ((if (strftime_ymd t =? d)%Z then 1 else 0) +
   count_on d (map (fun kc => strftime_ymd kc.1) groups) (map snd groups))%nat.
Proof.
  induction groups as [| [k c] rest IH]; [cbn; lia |].
  cbn [count_key].
  destruct (Z.ltb_spec t k); [cbn; lia |].
  destruct (Z.eqb_spec t k) as [-> | Hne].
  - cbn. destruct (strftime_ymd k =? d)%Z; lia.
  - cbn [map count_on fst snd]. rewrite IH. lia.
Qed.

Lemma count_on_groupby_from d (cs : list Claim) groups :
  let out := fold_left (fun g t => count_key t g) (map dateOfLoss cs) groups in
  count_on d (map (fun kc => strftime_ymd kc.1) out) (map snd out) =
  (count_on d (map (fun kc => strftime_ymd kc.1) groups) (map snd groups) +
   claims_on d cs)%nat.
Proof.
  revert groups. induction cs as [| c cs IH]; intros groups; cbn.
  - unfold claims_on. cbn. lia.
  - cbn in IH. rewrite IH, count_on_count_key. unfold claims_on. cbn.
    destruct (strftime_ymd (dateOfLoss c) =? d)%Z; cbn; lia.
Qed.

(** For every day, the counts reported for it add up to the number of
    matched claims lost on that day. *)
Lemma date_counts_count_on d claims ind :
  count_on d (date_counts claims ind).1 (date_counts claims ind).2 =
  claims_on d (iloc claims ind).
Proof.
  unfold date_counts, groupby_size. cbn [fst snd].
  by rewrite (count_on_groupby_from d (iloc claims ind) []).
Qed.

Lemma count_on_blocks d claims (vs : list (Q * Q)) :
  count_on d (concat (map (fun v => (vertex_block claims v).1) vs))
             (concat (map (fun v => (vertex_block claims v).2) vs)) =
  sum_list (map (fun v => claims_on d (iloc claims (vertex_matches claims v))) vs).
Proof.
  induction vs as [| v vs IH]; [done |].
  cbn [map concat]. rewrite count_on_app by apply date_counts_length.
  rewrite IH. unfold vertex_block at 1 2. rewrite date_counts_count_on. done.
Qed.

Lemma sum_list_blocks claims (vs : list (Q * Q)) :
  sum_list (concat (map (fun v => (vertex_block claims v).2) vs)) =
  sum_list (map (fun v => length (vertex_matches claims v)) vs).
Proof.
  induction vs as [| v vs IH]; [done |].
  cbn [map concat]. rewrite sum_list_with_app, IH, vertex_block_total. done.
Qed.

Lemma length_blocks claims (vs : list (Q * Q)) :
  length (concat (map (fun v => (vertex_block claims v).1) vs)) =
  length (concat (map (fun v => (vertex_block claims v).2) vs)).
Proof.
  induction vs as [| v vs IH]; [done |].
  cbn [map concat]. rewrite !length_app, IH.
  unfold vertex_block. by rewrite date_counts_length.
Qed.

End DateCounts.

(** ** Queries between places on one latitude *)

Section SameLatitude.

Local Open Scope R_scope.

Import Batch.

Lemma metric_same_lat (lon_c lon_g lat : Q) :
  Rabs (Q2R lon_c - Q2R lon_g) <= 180 ->
  Geo.haversine_metric
    (Geo.radians (Q2R lon_c), Geo.radians (Q2R lat))
    (Geo.radians (Q2R lon_g), Geo.radians (Q2R lat)) =
  Rabs (Q2R lon_c - Q2R lon_g) * PI / 180.
Proof.
  intros Hd. pose proof PI_RGT_0 as Hpi.
  assert (Heq : Geo.radians (Q2R lon_c) - Geo.radians (Q2R lon_g) =
                (Q2R lon_c - Q2R lon_g) * (PI / 180))
    by (unfold Geo.radians; lra).
  rewrite haversine_metric_same_snd; rewrite Heq, Rabs_mult,
    (Rabs_pos_eq (PI / 180)) by lra; [lra |].
  apply Rle_trans with (180 * (PI / 180)); [| lra].
  apply Rmult_le_compat_r; lra.
Qed.

Lemma in_ball_same_lat_near (lon_c lon_g lat : Q) :
  - (35 / 100) <= Q2R lon_c - Q2R lon_g <= 35 / 100 ->
  Geo.in_ball (Geo.radians (Q2R lon_g), Geo.radians (Q2R lat)) radius
              (Geo.radians (Q2R lon_c), Geo.radians (Q2R lat)) = true.
Proof.
  intros Hd. pose proof PI_4. pose proof PI_RGT_0.
  assert (Habs : Rabs (Q2R lon_c - Q2R lon_g) <= 35 / 100) by (apply Rabs_le; lra).
  apply in_ball_true. rewrite metric_same_lat by lra.
  unfold radius.
  assert (Hx : Rabs (Q2R lon_c - Q2R lon_g) * PI <= 35 / 100 * PI)
    by (apply Rmult_le_compat_r; lra).
  lra.
Qed.

Lemma in_ball_same_lat_far (lon_c lon_g lat : Q) :
  1 / 2 <= Q2R lon_c - Q2R lon_g <= 180 \/ 1 / 2 <= Q2R lon_g - Q2R lon_c <= 180 ->
  Geo.in_ball (Geo.radians (Q2R lon_g), Geo.radians (Q2R lat)) radius
              (Geo.radians (Q2R lon_c), Geo.radians (Q2R lat)) = false.
Proof.
  intros Hd. pose proof PI_gt_3.
  assert (Habs : 1 / 2 <= Rabs (Q2R lon_c - Q2R lon_g) <= 180).
  { unfold Rabs. destruct (Rcase_abs _); lra. }
  apply in_ball_false. rewrite metric_same_lat by lra.
  unfold radius.
  assert (Hx : 1 / 2 * PI <= Rabs (Q2R lon_c - Q2R lon_g) * PI)
    by (apply Rmult_le_compat_r; lra).
  lra.
Qed.

End SameLatitude.

(** ** The radius query against the great-circle distance *)

Section RadiusQuery.

Local Open Scope R_scope.

Import Batch Scenario.

Lemma radians_Q (n : Z) : Geo.radians (Q2R (inject_Z n)) = IZR n * PI / 180.
Proof. unfold Geo.radians, Q2R. cbn. lra. Qed.

(** A claim at (30 N, 90 W) is returned by the query of the vertex at
    (35 N, 90 W): the rows of the tree hold the longitude first, and the
    cosine of the common first coordinate is zero. *)
Lemma far_claim_returned : vertex_matches [claim_gulf] vertex_north = [0%nat].
Proof.
  pose proof PI_RGT_0 as Hpi.
  unfold vertex_matches, Geo.query_radius, claim_points_rad.
  cbn [map Geo.query_from longitude latitude claim_gulf vertex_north fst snd].
  rewrite in_ball_true; [reflexivity |].
  rewrite haversine_metric_cos_zero.
  - unfold radius. lra.
  - change (-90)%Q with (inject_Z (-90)). rewrite radians_Q.
    replace (-90 * PI / 180) with (- (PI / 2)) by lra.
    rewrite cos_neg. apply cos_PI2.
Qed.

Lemma far_claim_distance :
  500 < Geo.haversine_km (Q2R (latitude claim_gulf)) (Q2R (longitude claim_gulf))
                         (Q2R vertex_north.2) (Q2R vertex_north.1).
Proof.
  pose proof PI_gt_3 as Hpi3. pose proof PI_4 as Hpi4.
  unfold Geo.haversine_km, Geo.earth_radius_km.
  cbn [longitude latitude claim_gulf vertex_north fst snd].
  change 30%Q with (inject_Z 30). change 35%Q with (inject_Z 35).
  rewrite !radians_Q.
  assert (Hd : 30 * PI / 180 - 35 * PI / 180 = - (5 * PI / 180)) by lra.
  rewrite haversine_metric_same_snd; rewrite Hd, Rabs_Ropp, Rabs_pos_eq; lra.
Qed.

(** A claim at (60 N, 149.4 W) is not returned by the query of the vertex
    at (60 N, 150 W): between rows of equal second coordinate the metric of
    the tree is the difference of the first coordinates, 0.6 degree. *)
Lemma near_claim_missed : vertex_matches [claim_sixty] vertex_sixty = [].
Proof.
  unfold vertex_matches, Geo.query_radius, claim_points_rad.
  cbn [map Geo.query_from longitude latitude claim_sixty vertex_sixty fst snd].
  rewrite in_ball_same_lat_far by (unfold Q2R; cbn; lra).
  reflexivity.
Qed.

Lemma near_claim_distance :
  Geo.haversine_km (Q2R (latitude claim_sixty)) (Q2R (longitude claim_sixty))
                   (Q2R vertex_sixty.2) (Q2R vertex_sixty.1) < 45.
Proof.
  pose proof PI_gt_3 as Hpi3. pose proof PI_4 as Hpi4.
  unfold Geo.haversine_km, Geo.earth_radius_km.
  cbn [longitude latitude claim_sixty vertex_sixty fst snd].
  change 60%Q with (inject_Z 60). rewrite radians_Q.
  replace (60 * PI / 180) with (PI / 3) by lra.
  rewrite haversine_metric_same_fst by (rewrite cos_PI3; lra).
  rewrite cos_PI3.
  replace ((Geo.radians (Q2R (-1494 # 10)) - Geo.radians (Q2R (-150))) / 2)
    with (PI / 600) by (unfold Geo.radians, Q2R; cbn; lra).
  rewrite Rabs_pos_eq by (apply sin_ge_0; lra).
  assert (Hasin : asin (1 / 2 * sin (PI / 600)) <= PI / 600 / 2).
  { apply asin_le_of_le_sin.
    - assert (0 <= sin (PI / 600)) by (apply sin_ge_0; lra). lra.
    - replace (1 / 2 * sin (PI / 600)) with (/ 2 * sin (PI / 600)) by lra.
      apply half_sin_le_sin_half. lra.
    - lra. }
  lra.
Qed.

(** C1, at two failing inputs: the tree is built from rows that hold the
    longitude first, while its metric reads the first coordinate of a row as
    the latitude.  The 50 km query of a vertex returns a claim that is more
    than 500 km away by the great-circle distance, and the 50 km query of
    another vertex misses a claim that is less than 45 km away. *)
Theorem C1_far_claim_returned_near_claim_missed :
  (vertex_matches [claim_gulf] vertex_north = [0%nat]
   /\ 500 < Geo.haversine_km (Q2R (latitude claim_gulf)) (Q2R (longitude claim_gulf))
                              (Q2R vertex_north.2) (Q2R vertex_north.1))
  /\ (vertex_matches [claim_sixty] vertex_sixty = []
      /\ Geo.haversine_km (Q2R (latitude claim_sixty)) (Q2R (longitude claim_sixty))
                           (Q2R vertex_sixty.2) (Q2R vertex_sixty.1) < 45).
Proof.
  split; split.
  - exact far_claim_returned.
  - exact far_claim_distance.
  - exact near_claim_missed.
  - exact near_claim_distance.
Qed.

End RadiusQuery.

(** ** What the join of a footprint reports *)

Section JoinProperties.

Import Batch.

Implicit Types (claims : list Claim) (lon_arr lat_arr : list Q) (d : Date).

(** C2, as the code has it: one query per vertex, and the matches of each
    vertex are grouped by date on their own; the groups are appended in the
    order of the vertices and no union is taken.  For every day, the counts
    reported for it add up, over the vertices, to the number of claims of
    that day which the vertex matched: a claim matched by several vertices
    is counted once for each of them. *)
Theorem C2_matches_grouped_per_vertex claims lon_arr lat_arr :
  let out := gage_dates_counts claims (claim_points_rad claims)
                               lon_arr lat_arr in
  let vs := zip lon_arr lat_arr in
  out.1 = concat (map (fun v => (date_counts claims (vertex_matches claims v)).1) vs)
  /\ out.2 = concat (map (fun v => (date_counts claims (vertex_matches claims v)).2) vs)
  /\ forall d,
       count_on d out.1 out.2 =
       sum_list (map (fun v => claims_on d (iloc claims (vertex_matches claims v))) vs).
Proof.
  cbn zeta. rewrite gage_dates_counts_blocks. cbn [fst snd].
  split; [done |]. split; [done |].
  intros d. apply count_on_blocks.
Qed.

Lemma length_remove_dups_le (l : list nat) :
  (length (remove_dups l) <= length l)%nat.
Proof.
  induction l as [| x l IH]; cbn; [done |].
  destruct (decide_rel elem_of x l); cbn; lia.
Qed.

Lemma length_remove_dups_eq (l : list nat) :
  length (remove_dups l) = length l <-> NoDup l.
Proof.
  induction l as [| x l IH]; cbn.
  - split; [constructor | done].
  - pose proof (length_remove_dups_le l) as Hle.
    rewrite NoDup_cons. destruct (decide_rel elem_of x l) as [Hin | Hnin]; cbn.
    + split; [lia | by intros [? _]].
    + rewrite <- IH. split; [intros; split; [done | lia] | intros [_ ?]; lia].
Qed.

Lemma length_concat_matches claims (vs : list (Q * Q)) :
  length (concat (map (vertex_matches claims) vs)) =
  sum_list (map (fun v => length (vertex_matches claims v)) vs).
Proof.
  induction vs as [| v vs IH]; [done |].
  cbn [map concat]. rewrite length_app, IH. done.
Qed.

(** C3, as the code has it: the counts of a gauge add up to the number of
    matches of its vertices, each match of each vertex counted.  That is at
    least the number of distinct matched claims, and equal to it exactly
    when no claim is matched twice. *)
Theorem C3_counts_add_up_to_vertex_matches claims lon_arr lat_arr :
  let out := gage_dates_counts claims (claim_points_rad claims)
                               lon_arr lat_arr in
  let vs := zip lon_arr lat_arr in
  sum_list out.2 = sum_list (map (fun v => length (vertex_matches claims v)) vs)
  /\ (length (union_matches claims vs) <= sum_list out.2)%nat
  /\ (sum_list out.2 = length (union_matches claims vs) <->
      NoDup (concat (map (vertex_matches claims) vs))).
Proof.
  cbn zeta. rewrite gage_dates_counts_blocks. cbn [snd].
  rewrite sum_list_blocks, <- length_concat_matches. unfold union_matches.
  split; [done |]. split; [apply length_remove_dups_le |].
  rewrite <- length_remove_dups_eq. split; intros; by symmetry.
Qed.

Lemma vertex_block_pairs claims (v : Q * Q) :
  vertex_block claims v = ((vertex_pairs claims v).*1, (vertex_pairs claims v).*2).
Proof.
  unfold vertex_block, vertex_pairs, date_counts. cbn zeta.
  f_equal; rewrite <- list_fmap_compose; by apply list_fmap_ext.
Qed.

Lemma blocks_pairs claims (vs : list (Q * Q)) :
  concat (map (fun v => (vertex_block claims v).1) vs) =
    (concat (map (vertex_pairs claims) vs)).*1
  /\ concat (map (fun v => (vertex_block claims v).2) vs) =
    (concat (map (vertex_pairs claims) vs)).*2.
Proof.
  induction vs as [| v vs [IH1 IH2]]; [done |].
  cbn [map concat]. rewrite !fmap_app, IH1, IH2, vertex_block_pairs. done.
Qed.

(** C4, as the code has it: the two lists of a gauge are the dates and the
    counts of one list of pairs, so they have the same length and the count
    at a position belongs to the date at that position; the dates ascend
    within the part that each vertex contributes; and the part of a vertex
    is the same for every order in which the query lists its matches. *)
Theorem C4_parallel_and_sorted_per_vertex claims lon_arr lat_arr :
  let out := gage_dates_counts claims (claim_points_rad claims)
                               lon_arr lat_arr in
  let vs := zip lon_arr lat_arr in
  length out.1 = length out.2
  /\ out.1 = (concat (map (vertex_pairs claims) vs)).*1
  /\ out.2 = (concat (map (vertex_pairs claims) vs)).*2
  /\ Forall (fun v => Sorted Z.le (vertex_pairs claims v).*1) vs
  /\ Forall (fun v => forall ind, ind ≡ₚ vertex_matches claims v ->
                       date_counts claims ind = vertex_block claims v) vs.
Proof.
  cbn zeta. rewrite gage_dates_counts_blocks. cbn [fst snd].
  destruct (blocks_pairs claims (zip lon_arr lat_arr)) as [H1 H2].
  split; [apply length_blocks |]. split; [done |]. split; [done |].
  split; apply Forall_forall; intros v _.
  - pose proof (date_counts_sorted claims (vertex_matches claims v)) as Hs.
    fold (vertex_block claims v) in Hs.
    by rewrite vertex_block_pairs in Hs.
  - intros ind Hp. by apply date_counts_perm.
Qed.

End JoinProperties.

(** ** The join on concrete footprints *)

Section JoinExamples.

Import Batch Scenario.

Local Ltac eval_matches :=
  unfold vertex_matches, Geo.query_radius, claim_points_rad;
  cbn [map Geo.query_from longitude latitude fst snd
       claim_nashville claim_west claim_east claim_on_vertex];
  repeat first
    [ rewrite in_ball_same_lat_near by (unfold Q2R; cbn; lra)
    | rewrite in_ball_same_lat_far by (unfold Q2R; cbn; lra) ];
  reflexivity.

Lemma nashville_matched_from_west :
  vertex_matches [claim_nashville] ((-868 # 10)%Q, (361 # 10)%Q) = [0%nat].
Proof. eval_matches. Qed.

Lemma nashville_matched_from_east :
  vertex_matches [claim_nashville] ((-867 # 10)%Q, (361 # 10)%Q) = [0%nat].
Proof. eval_matches. Qed.

Lemma apart_matched_from_west :
  vertex_matches [claim_west; claim_east] ((-868 # 10)%Q, (361 # 10)%Q) = [0%nat].
Proof. eval_matches. Qed.

Lemma apart_matched_from_east :
  vertex_matches [claim_west; claim_east] ((-858 # 10)%Q, (361 # 10)%Q) = [1%nat].
Proof. eval_matches. Qed.

(** A claim on the only vertex of a footprint is reported once, on the
    day of its loss. *)
Lemma join_claim_on_vertex :
  gage_dates_counts [claim_on_vertex] (claim_points_rad [claim_on_vertex])
                    [(-8675 # 100)%Q] [(3615 # 100)%Q] =
  ([day_2020_05_01], [1%nat]).
Proof.
  rewrite gage_dates_counts_blocks. unfold vertex_block.
  cbn [zip zip_with map].
  assert (Hm : vertex_matches [claim_on_vertex] ((-8675 # 100)%Q, (3615 # 100)%Q) =
               [0%nat]) by eval_matches.
  rewrite Hm. reflexivity.
Qed.

Lemma join_two_vertices :
  gage_dates_counts [claim_nashville] (claim_points_rad [claim_nashville])
                    lon_two lat_two =
  ([day_2020_05_01; day_2020_05_01], [1%nat; 1%nat]).
Proof.
  rewrite gage_dates_counts_blocks. unfold vertex_block.
  cbn [lon_two lat_two zip zip_with map].
  rewrite nashville_matched_from_west, nashville_matched_from_east.
  reflexivity.
Qed.

Lemma union_two_vertices :
  union_matches [claim_nashville] (zip lon_two lat_two) = [0%nat].
Proof.
  unfold union_matches. cbn [lon_two lat_two zip zip_with map].
  rewrite nashville_matched_from_west, nashville_matched_from_east.
  reflexivity.
Qed.

(** C2, as stated, fails: the claim near Nashville is matched by both
    vertices of the footprint and is reported twice for its day, while the
    union of the matches grouped by date reports it once. *)
Lemma C2_claim_matched_by_two_vertices_counted_twice :
  let out := gage_dates_counts [claim_nashville]
               (claim_points_rad [claim_nashville]) lon_two lat_two in
  out <> expand_spec [claim_nashville] (zip lon_two lat_two)
  /\ count_on day_2020_05_01 out.1 out.2 = 2%nat
  /\ length (union_matches [claim_nashville] (zip lon_two lat_two)) = 1%nat.
Proof.
  cbn zeta. unfold expand_spec.
  rewrite join_two_vertices, union_two_vertices.
  split; [by vm_compute |]. split; reflexivity.
Qed.

(** C3, as stated, fails on the same footprint: the counts add up to two,
    the set of matched claims has one member. *)
Lemma C3_counts_exceed_matched_set :
  sum_list (gage_dates_counts [claim_nashville]
              (claim_points_rad [claim_nashville]) lon_two lat_two).2
  <> length (union_matches [claim_nashville] (zip lon_two lat_two)).
Proof. rewrite join_two_vertices, union_two_vertices. by vm_compute. Qed.

Lemma join_apart :
  gage_dates_counts [claim_west; claim_east]
    (claim_points_rad [claim_west; claim_east]) lon_apart lat_two =
  ([day_2020_05_01; day_2010_05_02], [1%nat; 1%nat]).
Proof.
  rewrite gage_dates_counts_blocks. unfold vertex_block.
  cbn [lon_apart lat_two zip zip_with map].
  rewrite apart_matched_from_west, apart_matched_from_east.
  reflexivity.
Qed.

(** C4, as stated, fails: with a later claim at the first vertex and an
    earlier one at the second, the dates of the gauge do not ascend. *)
Lemma C4_dates_of_gauge_not_ascending :
  ~ Sorted Z.le (gage_dates_counts [claim_west; claim_east]
                   (claim_points_rad [claim_west; claim_east])
                   lon_apart lat_two).1.
Proof.
  rewrite join_apart. cbn [fst]. intros Hs.
  inversion Hs as [| ? ? _ Hhd]; subst.
  inversion Hhd as [| ? ? Hle]; subst.
  vm_compute in Hle. by apply Hle.
Qed.

End JoinExamples.

(** ** The rows of the batch output *)

Section OutputRows.

Import Batch.

Implicit Types (claims : list Claim) (tree : list (R * R)).
Implicit Types (gage : gmap string cell) (row : gmap string value).

Lemma gage_row_Some claims tree gage (lon lat : cell) :
  gage !! "longitude" = Some lon ->
  gage !! "latitude" = Some lat ->
  gage_row claims tree gage =
  Some (<["num_claims" :=
            VCounts (gage_dates_counts claims tree (parse_coord lon) (parse_coord lat)).2]>
        (<["dates" :=
            VDates (gage_dates_counts claims tree (parse_coord lon) (parse_coord lat)).1]>
        (VCell <$> gage))).
Proof. intros Hlon Hlat. unfold gage_row. by rewrite Hlon, Hlat. Qed.

Lemma gage_row_inv claims tree gage row :
  gage_row claims tree gage = Some row ->
  exists lon lat,
    gage !! "longitude" = Some lon /\ gage !! "latitude" = Some lat /\
    row !! "dates" =
      Some (VDates (gage_dates_counts claims tree (parse_coord lon) (parse_coord lat)).1) /\
    row !! "num_claims" =
      Some (VCounts (gage_dates_counts claims tree (parse_coord lon) (parse_coord lat)).2) /\
    forall k, k <> "dates" -> k <> "num_claims" -> row !! k = VCell <$> gage !! k.
Proof.
  unfold gage_row. intros Hrow.
  destruct (gage !! "longitude") as [lon |] eqn:Hlon; [| done].
  destruct (gage !! "latitude") as [lat |] eqn:Hlat; [| done].
  cbn in Hrow. injection Hrow as <-.
  exists lon, lat. split; [done |]. split; [done |].
  split; [| split].
  - rewrite lookup_insert_ne by done. by rewrite lookup_insert_eq.
  - by rewrite lookup_insert_eq.
  - intros k Hd Hn. rewrite !lookup_insert_ne by done. by rewrite lookup_fmap.
Qed.

(** Python's [zip] stops at the end of the shorter list. *)
Lemma zip_take_min {A B} (l : list A) (k : list B) :
  zip l k = zip (take (length l `min` length k) l) (take (length l `min` length k) k).
Proof.
  revert k. induction l as [| x l IH]; intros [| y k]; cbn; try done.
  f_equal. apply IH.
Qed.

Lemma gage_dates_counts_take claims tree (lon_arr lat_arr : list Q) :
  gage_dates_counts claims tree lon_arr lat_arr =
  gage_dates_counts claims tree
    (take (length lon_arr `min` length lat_arr) lon_arr)
    (take (length lon_arr `min` length lat_arr) lat_arr).
Proof. unfold gage_dates_counts. by rewrite <- zip_take_min. Qed.

Lemma gage_dates_counts_no_vertex claims tree (lon_arr lat_arr : list Q) :
  zip lon_arr lat_arr = [] ->
  gage_dates_counts claims tree lon_arr lat_arr = ([], []).
Proof. intros Hz. unfold gage_dates_counts. by rewrite Hz. Qed.

End OutputRows.

(** ** Records of the gauge table and their output rows *)

Section Records.

Import Batch Scenario.

Implicit Types (claims : list Claim) (gages : list (gmap string cell)).

(** The tree is built exactly when there is a claim to build it from, and
    then the loop over the gauge table runs on it. *)
Lemma BallTree_Some (X tree : list (R * R)) :
  BallTree X = Some tree <-> X <> [] /\ tree = X.
Proof. destruct X; cbn; split; [done | by intros [] | | intros [_ ->]]; naive_solver. Qed.

Lemma claim_points_rad_nil claims : claim_points_rad claims = [] <-> claims = [].
Proof. unfold claim_points_rad. by destruct claims. Qed.


Lemma main_with_claims claims gages :
  claims <> [] ->
  main claims gages = mapM (gage_row claims (claim_points_rad claims)) gages.
Proof. by destruct claims. Qed.

Lemma main_Some_loop claims gages (rows : list (gmap string value)) :
  main claims gages = Some rows ->
  claims <> [] /\
  mapM (gage_row claims (claim_points_rad claims)) gages = Some rows.
Proof. destruct claims; [done |]. intros H. by rewrite main_with_claims in H. Qed.

(** C9: the row of a gauge holds every column of the gauge record with the
    cell it had; only [dates] and [num_claims] are set, to the two lists. *)
Theorem C9_original_fields_unchanged claims gages (rows : list (gmap string value)) :
  main claims gages = Some rows ->
  Forall2 (fun (gage : gmap string cell) (row : gmap string value) =>
             (forall k, k <> "dates" -> k <> "num_claims" ->
                        row !! k = VCell <$> gage !! k)
             /\ (exists ds, row !! "dates" = Some (VDates ds))
             /\ (exists cs, row !! "num_claims" = Some (VCounts cs)))
          gages rows.
Proof.
  intros Hmain. apply main_Some_loop in Hmain as [_ Hmain].
  apply mapM_Some_1 in Hmain.
  eapply Forall2_impl; [exact Hmain |].
  intros gage row Hrow. cbn in Hrow.
  destruct (gage_row_inv _ _ _ _ Hrow) as (lon & lat & _ & _ & Hd & Hn & Hk).
  split; [exact Hk |]. split; eauto.
Qed.

Lemma main_rows claims gages :
  claims <> [] ->
  Forall (fun gage : gmap string cell =>
            is_Some (gage !! "longitude") /\ is_Some (gage !! "latitude")) gages ->
  exists rows,
    main claims gages = Some rows /\
    Forall2 (fun (gage : gmap string cell) (row : gmap string value) =>
               exists lon lat,
                 gage !! "longitude" = Some lon /\ gage !! "latitude" = Some lat /\
                 let dc := gage_dates_counts claims (claim_points_rad claims)
                             (parse_coord lon) (parse_coord lat) in
                 row !! "dates" = Some (VDates dc.1) /\
                 row !! "num_claims" = Some (VCounts dc.2))
            gages rows.
Proof.
  intros Hclaims. rewrite main_with_claims by done.
  induction 1 as [| gage gages [[lon Hlon] [lat Hlat]] _ IH].
  - exists []. split; [done | constructor].
  - destruct IH as (rows & Hrows & Hall).
    pose proof (gage_row_Some claims (claim_points_rad claims)
                  gage lon lat Hlon Hlat) as Hrow.
    eexists (_ :: rows). split.
    + cbn. rewrite Hrow. cbn. rewrite Hrows. reflexivity.
    + constructor; [| exact Hall].
      exists lon, lat. split; [done |]. split; [done |]. cbn zeta. split.
      * rewrite lookup_insert_ne by done. by rewrite lookup_insert_eq.
      * by rewrite lookup_insert_eq.
Qed.

(** C6, as the code has it: a record whose coordinate lists differ in
    length is not skipped.  In a run that has a claim to build the tree
    from, every record of a table with the two coordinate columns gets its
    output row, and the lists of the row are those of the footprint cut to
    the length of the shorter coordinate list. *)
Theorem C6_unequal_lengths_cut_to_shorter claims gages :
  claims <> [] ->
  Forall (fun gage : gmap string cell =>
            is_Some (gage !! "longitude") /\ is_Some (gage !! "latitude")) gages ->
  exists rows,
    main claims gages = Some rows /\
    Forall2 (fun (gage : gmap string cell) (row : gmap string value) =>
               exists lon lat,
                 gage !! "longitude" = Some lon /\ gage !! "latitude" = Some lat /\
                 let lon_arr := parse_coord lon in
                 let lat_arr := parse_coord lat in
                 let n := length lon_arr `min` length lat_arr in
                 let dc := gage_dates_counts claims (claim_points_rad claims)
                             (take n lon_arr) (take n lat_arr) in
                 row !! "dates" = Some (VDates dc.1) /\
                 row !! "num_claims" = Some (VCounts dc.2))
            gages rows.
Proof.
  intros Hclaims Hcols.
  destruct (main_rows claims gages Hclaims Hcols) as (rows & Hmain & Hall).
  exists rows. split; [exact Hmain |].
  eapply Forall2_impl; [exact Hall |].
  intros gage row (lon & lat & Hlon & Hlat & Hd & Hn). cbn zeta in *.
  exists lon, lat. split; [done |]. split; [done |].
  by rewrite <- gage_dates_counts_take.
Qed.

Lemma main_two : main [claim_nashville] [gage_two] = Some [row_two].
Proof.
  rewrite main_with_claims by done. cbn [mapM].
  rewrite (gage_row_Some _ _ gage_two (CStr "[-86.8, -86.7]" (Literal (PSeq lon_two)))
             (CStr "[36.1, 36.1]" (Literal (PSeq lat_two)))) by reflexivity.
  cbn [parse_coord eval floats mbind option_bind]. rewrite join_two_vertices. reflexivity.
Qed.

Lemma join_short :
  gage_dates_counts [claim_nashville] (claim_points_rad [claim_nashville])
                    lon_two lat_short =
  ([day_2020_05_01], [1%nat]).
Proof.
  rewrite gage_dates_counts_blocks. unfold vertex_block.
  cbn [lon_two lat_short zip zip_with map].
  rewrite nashville_matched_from_west. reflexivity.
Qed.

Lemma main_short : main [claim_nashville] [gage_short] = Some [row_short].
Proof.
  rewrite main_with_claims by done. cbn [mapM].
  rewrite (gage_row_Some _ _ gage_short (CStr "[-86.8, -86.7]" (Literal (PSeq lon_two)))
             (CStr "[36.1]" (Literal (PSeq lat_short)))) by reflexivity.
  cbn [parse_coord eval floats mbind option_bind]. rewrite join_short. reflexivity.
Qed.

End Records.

Section RecordExamples.

Import Batch Scenario.

Lemma C9_original_fields_unchanged_witness :
  main [claim_nashville] [gage_two] = Some [row_two]
  /\ Forall2 (fun (gage : gmap string cell) (row : gmap string value) =>
               (forall k, k <> "dates" -> k <> "num_claims" ->
                          row !! k = VCell <$> gage !! k)
               /\ (exists ds, row !! "dates" = Some (VDates ds))
               /\ (exists cs, row !! "num_claims" = Some (VCounts cs)))
            [gage_two] [row_two].
Proof.
  split; [exact main_two |].
  exact (C9_original_fields_unchanged [claim_nashville] [gage_two] [row_two] main_two).
Defined.

Lemma gage_short_columns :
  Forall (fun gage : gmap string cell =>
            is_Some (gage !! "longitude") /\ is_Some (gage !! "latitude"))
         [gage_short].
Proof. repeat constructor; eexists; reflexivity. Qed.

Lemma C6_unequal_lengths_cut_to_shorter_witness :
  [claim_nashville] <> []
  /\ Forall (fun gage : gmap string cell =>
            is_Some (gage !! "longitude") /\ is_Some (gage !! "latitude"))
         [gage_short]
  /\ exists rows,
      main [claim_nashville] [gage_short] = Some rows /\
      Forall2 (fun (gage : gmap string cell) (row : gmap string value) =>
                 exists lon lat,
                   gage !! "longitude" = Some lon /\ gage !! "latitude" = Some lat /\
                   let lon_arr := parse_coord lon in
                   let lat_arr := parse_coord lat in
                   let n := length lon_arr `min` length lat_arr in
                   let dc := gage_dates_counts [claim_nashville]
                               (claim_points_rad [claim_nashville])
                               (take n lon_arr) (take n lat_arr) in
                   row !! "dates" = Some (VDates dc.1) /\
                   row !! "num_claims" = Some (VCounts dc.2))
              [gage_short] rows.
Proof.
  split; [discriminate |]. split; [exact gage_short_columns |].
  exact (C6_unequal_lengths_cut_to_shorter [claim_nashville] [gage_short]
           ltac:(discriminate) gage_short_columns).
Defined.

(** C6, as stated, fails: the record [gage_short] has two longitudes and one
    latitude, yet it gets an output row, and its first vertex contributes the
    match of the claim near Nashville. *)
Lemma C6_record_with_short_latitude_not_skipped :
  length (parse_coord (CStr "[-86.8, -86.7]" (Literal (PSeq lon_two)))) <>
    length (parse_coord (CStr "[36.1]" (Literal (PSeq lat_short))))
  /\ gage_short !! "longitude" = Some (CStr "[-86.8, -86.7]" (Literal (PSeq lon_two)))
  /\ gage_short !! "latitude" = Some (CStr "[36.1]" (Literal (PSeq lat_short)))
  /\ main [claim_nashville] [gage_short] = Some [row_short]
  /\ row_short !! "dates" = Some (VDates [day_2020_05_01])
  /\ row_short !! "num_claims" = Some (VCounts [1%nat]).
Proof.
  split; [by vm_compute |]. split; [reflexivity |]. split; [reflexivity |].
  split; [exact main_short |]. split; reflexivity.
Qed.

End RecordExamples.

(** ** Sorting by distance *)

Section SortValues.

Import Interactive.

Implicit Types (a b c : float) (r : row) (df : list row).

Lemma Qle_bool_total (x y : Q) : Qle_bool x y = false -> Qle_bool y x = true.
Proof.
  intros Hxy. apply Qle_bool_iff.
  destruct (Qlt_le_dec y x) as [Hlt | Hle].
  - by apply Qlt_le_weak.
  - apply Qle_bool_iff in Hle. congruence.
Qed.

Lemma Qle_bool_trans (x y z : Q) :
  Qle_bool x y = true -> Qle_bool y z = true -> Qle_bool x z = true.
Proof. rewrite !Qle_bool_iff. apply Qle_trans. Qed.

Lemma sort_le_total a b : sort_le a b = false -> sort_le b a = true.
Proof. destruct a, b; cbn; try done. apply Qle_bool_total. Qed.

Lemma sort_le_trans a b c :
  sort_le a b = true -> sort_le b c = true -> sort_le a c = true.
Proof. destruct a, b, c; cbn; try done. apply Qle_bool_trans. Qed.

Lemma fle_not_nan_l a b : fle a b = true -> isna a = false.
Proof. by destruct a, b. Qed.

Lemma sort_le_fle a b : isna a = false -> isna b = false -> sort_le a b = fle a b.
Proof. by destruct a, b. Qed.

Lemma insert_row_perm r df : insert_row r df ≡ₚ r :: df.
Proof.
  induction df as [| s rest IH]; cbn; [done |].
  destruct (sort_le _ _); [done |].
  rewrite IH. apply Permutation_swap.
Qed.

Lemma sort_values_perm df : sort_values df ≡ₚ df.
Proof.
  induction df as [| r df IH]; cbn; [done |].
  by rewrite insert_row_perm, IH.
Qed.

Lemma insert_row_sorted r df :
  Sorted (fun x y => sort_le (distance_col x) (distance_col y) = true) df ->
  Sorted (fun x y => sort_le (distance_col x) (distance_col y) = true)
         (insert_row r df).
Proof.
  induction 1 as [| s rest Hrest IH Hhd]; cbn.
  - by repeat constructor.
  - destruct (sort_le (distance_col r) (distance_col s)) eqn:Hrs.
    + constructor; [by constructor | by constructor].
    + constructor; [exact IH |].
      apply sort_le_total in Hrs.
      destruct rest as [| s' rest']; cbn.
      * by constructor.
      * inversion Hhd; subst.
        destruct (sort_le (distance_col r) (distance_col s')); by constructor.
Qed.

Lemma sort_values_sorted df :
  Sorted (fun x y => sort_le (distance_col x) (distance_col y) = true)
         (sort_values df).
Proof.
  induction df as [| r df IH]; cbn; [constructor | by apply insert_row_sorted].
Qed.

(** On rows that all have a distance, the sorted table ascends by distance,
    each row being no farther away than every later one. *)
Lemma sort_values_by_distance df :
  Forall (fun r => isna (distance_col r) = false) df ->
  StronglySorted by_distance (sort_values df).
Proof.
  intros Hna.
  assert (Hna' : Forall (fun r => isna (distance_col r) = false) (sort_values df))
    by (by rewrite sort_values_perm).
  pose proof (sort_values_sorted df) as Hs.
  apply Sorted_StronglySorted in Hs.
  2:{ intros x y z. apply sort_le_trans. }
  induction Hs as [| r rest Hrest IH Hall]; [constructor |].
  apply Forall_cons in Hna' as [Hr Hna'].
  constructor; [by apply IH |].
  rewrite Forall_forall in Hall, Hna'. apply Forall_forall. intros x Hx.
  unfold by_distance. rewrite <- sort_le_fle; auto.
Qed.

End SortValues.

(** ** The nearest-gauge query *)

Section Finder.

Import Interactive.

Variable geodesic : Q * Q → Q * Q → option Q.

Implicit Types (df : list row) (r out : row) (target_lat target_lon : Q).
Implicit Types (max_distance_km : float).

Lemma find_closest_gauges_sorted_filter df target_lat target_lon max_distance_km :
  find_closest_gauges geodesic (Some df) target_lat target_lon max_distance_km =
  sort_values (within_radius geodesic df target_lat target_lon max_distance_km).
Proof.
  unfold find_closest_gauges, within_radius.
  destruct df as [| r0 df0]; [done |].
  destruct (dropna_centers (r0 :: df0)) as [| r1 rest] eqn:Hclean; [done |].
  change (map ?f ?l) with (f <$> l).
  by rewrite zip_with_fmap_r, zip_with_diag.
Qed.

Lemma distance_col_set_distance r (d : float) : distance_col (set_distance r d) = d.
Proof. reflexivity. Qed.

Lemma within_radius_not_nan df target_lat target_lon max_distance_km :
  Forall (fun r => isna (distance_col r) = false)
         (within_radius geodesic df target_lat target_lon max_distance_km).
Proof.
  apply Forall_forall. intros r Hr. apply list_elem_of_In in Hr.
  apply filter_In in Hr as [_ Hle]. by apply fle_not_nan_l in Hle.
Qed.

(** Every row of the answer is a row of the table with defined centre, with
    the distance computed for it, and that distance is within the radius. *)
Lemma find_closest_gauges_elem df target_lat target_lon max_distance_km out :
  out ∈ find_closest_gauges geodesic (Some df) target_lat target_lon max_distance_km ->
  exists r, r ∈ df
    /\ isna (center_lat r) = false /\ isna (center_lon r) = false
    /\ out = set_distance r (row_distance geodesic target_lat target_lon r)
    /\ fle (row_distance geodesic target_lat target_lon r) max_distance_km = true.
Proof.
  rewrite find_closest_gauges_sorted_filter, sort_values_perm.
  unfold within_radius. intros Hout. apply list_elem_of_In in Hout.
  apply filter_In in Hout as [Hin Hle].
  apply in_map_iff in Hin as (r & <- & Hr).
  unfold dropna_centers in Hr. apply filter_In in Hr as [Hr Hc].
  apply andb_true_iff in Hc as [Hlat Hlon].
  apply negb_true_iff in Hlat, Hlon.
  exists r. repeat split; try done. by apply list_elem_of_In.
Qed.

(** C5, as the code has it: the answer holds the rows within the radius,
    each once, in ascending order of distance; the sort has no second key. *)
Theorem C5_sorted_ascending_by_distance
    (df : option (list row)) target_lat target_lon max_distance_km :
  let out := find_closest_gauges geodesic df target_lat target_lon max_distance_km in
  StronglySorted by_distance out
  /\ out ≡ₚ within_radius geodesic (default [] df) target_lat target_lon max_distance_km.
Proof.
  cbn zeta. destruct df as [df |].
  - rewrite find_closest_gauges_sorted_filter. split.
    + apply sort_values_by_distance, within_radius_not_nan.
    + apply sort_values_perm.
  - cbn. split; [constructor | done].
Qed.

(** C10: a row whose distance computation raises gets the distance
    infinity, and no row of the answer for a finite radius stems from it. *)
Theorem C10_failed_distance_is_infinite_and_excluded
    df target_lat target_lon (max_km : Q) r (clat clon : Q) :
  center_lat r = Fin clat ->
  center_lon r = Fin clon ->
  geodesic (target_lat, target_lon) (clat, clon) = None ->
  row_distance geodesic target_lat target_lon r = PInf
  /\ forall d : float,
       set_distance r d ∉
         find_closest_gauges geodesic (Some df) target_lat target_lon (Fin max_km).
Proof.
  intros Hlat Hlon Hfail.
  assert (Hinf : row_distance geodesic target_lat target_lon r = PInf)
    by (unfold row_distance; by rewrite Hlat, Hlon, Hfail).
  split; [exact Hinf |].
  intros d Hin.
  apply find_closest_gauges_elem in Hin as (r' & _ & _ & _ & Heq & Hle).
  assert (Hsame : row_distance geodesic target_lat target_lon r' =
                  row_distance geodesic target_lat target_lon r).
  { unfold row_distance.
    apply (f_equal center_lat) in Heq as Hl1. apply (f_equal center_lon) in Heq as Hl2.
    cbn in Hl1, Hl2. by rewrite <- Hl1, <- Hl2. }
  rewrite Hsame, Hinf in Hle. discriminate.
Qed.

End Finder.

(** ** The claims timeline *)

Section Timeline.

Import Interactive.

Implicit Types (df : list row) (r : row) (events : list Event).

Lemma append_events r (pairs : list (Date * Z)) events :
  fold_left (fun evs dc => evs ++ [make_event r dc]) pairs events =
  events ++ map (make_event r) pairs.
Proof.
  revert events. induction pairs as [| dc pairs IH]; intros events; cbn.
  - by rewrite app_nil_r.
  - rewrite IH. by rewrite <- app_assoc.
Qed.

(** The guard on empty lists changes nothing: a row without dates or
    without counts has no pair to zip. *)
Lemma timeline_step_row_events events r :
  timeline_step events r = events ++ row_events r.
Proof.
  unfold timeline_step, row_events.
  destruct (dates (base r)) as [| d ds]; cbn; [by rewrite app_nil_r |].
  destruct (num_claims (base r)) as [| c cs]; cbn; [by rewrite app_nil_r |].
  rewrite append_events. by rewrite <- app_assoc.
Qed.

Lemma fold_timeline_step df events :
  fold_left timeline_step df events = events ++ concat (map row_events df).
Proof.
  revert events. induction df as [| r df IH]; intros events; cbn.
  - by rewrite app_nil_r.
  - rewrite IH, timeline_step_row_events. by rewrite <- app_assoc.
Qed.

(** C8: the timeline is the events of the first row, then those of the
    second, and so on; the events of a row are one for each pair of its
    dates and counts, in the order of the lists, each with the identifier,
    the discharge and the distance of the row.  A row without pairs adds
    nothing, and nothing is reordered. *)
Theorem C8_timeline_is_rows_events_in_order df :
  create_claims_timeline df = concat (map row_events df)
  /\ Forall (fun r =>
               row_events r =
                 map (fun dc => {| e_gauge_id := gauge_id (base r);
                                   e_date := to_datetime dc.1;
                                   e_claims := dc.2;
                                   e_discharge := discharge (base r);
                                   e_distance_km := default (Fin 0) (distance_km r) |})
                     (zip (dates (base r)) (num_claims (base r)))
               /\ length (row_events r) =
                    length (dates (base r)) `min` length (num_claims (base r))) df
  /\ length (create_claims_timeline df) =
       sum_list (map (fun r => length (dates (base r)) `min`
                                length (num_claims (base r))) df).
Proof.
  assert (Heq : create_claims_timeline df = concat (map row_events df))
    by (unfold create_claims_timeline; by rewrite fold_timeline_step).
  assert (Hlen : forall r, length (row_events r) =
                           length (dates (base r)) `min` length (num_claims (base r)))
    by (intros r; unfold row_events; by rewrite length_map, length_zip_with).
  split; [exact Heq |]. split.
  - apply Forall_forall. intros r _. split; [reflexivity | apply Hlen].
  - rewrite Heq. clear Heq. induction df as [| r df IH]; [done |].
    cbn [map concat]. rewrite length_app, IH, Hlen. done.
Qed.

End Timeline.

(** ** Footprints without vertices *)

Section NoVertices.

Import Batch Interactive.

Variable geodesic : Q * Q → Q * Q → option Q.

Lemma center_nil_or_nil (lon_arr lat_arr : list Q) :
  zip lon_arr lat_arr = [] -> center lon_arr = NaN \/ center lat_arr = NaN.
Proof. destruct lon_arr, lat_arr; cbn; intros; try discriminate; auto. Qed.

(** A text that [ast.literal_eval] reads as a list of numbers is read as
    the same list by [parse_coord]. *)
Lemma literal_eval_parse_coord (c : cell) (l : list Q) :
  literal_eval c = Some (PSeq l) -> parse_coord c = l.
Proof. destruct c as [| | ? [[] |] |]; cbn; congruence. Qed.

(** C7, as the code has it: in a run that has a claim to build the tree
    from, over a gauge table with the two coordinate columns, a record whose
    coordinate cells hold lists that pair up to no vertex gets an output
    row with these cells and with empty [dates] and [num_claims]; the row
    that [load_gage_data] makes of it has no centre, and no row of any
    answer of [find_closest_gauges] stems from it, whatever the target and
    the radius, whether or not the table could be loaded. *)
Theorem C7_footprint_without_vertices
    (claims : list Claim) (gages : list (gmap string cell)) (i : nat)
    (gage : gmap string cell) (lon lat : cell)
    (table : option (list summary)) (s : summary)
    (target_lat target_lon : Q) (max_distance_km : float) :
  claims <> [] ->
  Forall (fun g : gmap string cell =>
            is_Some (g !! "longitude") /\ is_Some (g !! "latitude")) gages ->
  gages !! i = Some gage ->
  gage !! "longitude" = Some lon ->
  gage !! "latitude" = Some lat ->
  literal_eval lon = Some (PSeq (longitude s)) ->
  literal_eval lat = Some (PSeq (latitude s)) ->
  zip (longitude s) (latitude s) = [] ->
  (exists rows row,
     main claims gages = Some rows /\ rows !! i = Some row /\
     row !! "longitude" = Some (VCell lon) /\ row !! "latitude" = Some (VCell lat) /\
     row !! "dates" = Some (VDates []) /\ row !! "num_claims" = Some (VCounts []))
  /\ (center_lon (load_row s) = NaN \/ center_lat (load_row s) = NaN)
  /\ forall out,
       out ∈ find_closest_gauges geodesic (load_gage_data <$> table)
               target_lat target_lon max_distance_km ->
       base out <> s.
Proof.
  intros Hclaims Hcols Hi Hlon Hlat Hslon Hslat Hzip.
  assert (Hnan : center_lon (load_row s) = NaN \/ center_lat (load_row s) = NaN).
  { cbn. by apply center_nil_or_nil. }
  split; [| split; [exact Hnan |]].
  - destruct (main_rows claims gages Hclaims Hcols) as (rows & Hmain & _).
    destruct (main_Some_loop _ _ _ Hmain) as [_ Hloop].
    apply mapM_Some_1 in Hloop.
    destruct (Forall2_lookup_l _ _ _ _ _ Hloop Hi) as (row & Hrow & Hgage).
    apply gage_row_inv in Hgage
      as (lon' & lat' & Hlon' & Hlat' & Hd & Hn & Hk).
    assert (lon' = lon) as -> by congruence.
    assert (lat' = lat) as -> by congruence.
    rewrite (literal_eval_parse_coord _ _ Hslon),
      (literal_eval_parse_coord _ _ Hslat) in Hd, Hn.
    rewrite gage_dates_counts_no_vertex in Hd, Hn by done.
    exists rows, row. repeat split; try done.
    + by rewrite Hk, Hlon.
    + by rewrite Hk, Hlat.
  - intros out Hout Hbase.
    destruct table as [table |]; [| by apply not_elem_of_nil in Hout].
    apply find_closest_gauges_elem in Hout as (r & Hr & Hclat & Hclon & -> & _).
    unfold load_gage_data in Hr. apply list_elem_of_In, in_map_iff in Hr as (s' & <- & _).
    cbn in Hbase. subst s'.
    destruct Hnan as [Hn | Hn]; rewrite Hn in *; discriminate.
Qed.

End NoVertices.

(** ** The query on concrete tables *)

Section QueryExamples.

Import Batch Interactive Scenario.

(** The centre of the footprint with the corners (-86.8, 36.1) and
    (-86.7, 36.2) is (-86.75, 36.15). *)
Lemma center_of_box :
  center lon_two = Fin (-347 # 4) /\ center lat_box = Fin (723 # 20)
  /\ (-347 # 4 == target_lon)%Q /\ (723 # 20 == target_lat)%Q.
Proof. repeat split. Qed.

(** Whatever [geodesic] reports for the common centre, both gauges get that
    distance and stay in the order of the table. *)
Lemma equal_distances_keep_table_order
    (geodesic : Q * Q → Q * Q → option Q) (d : Q) :
  geodesic (target_lat, target_lon) (mean lat_box, mean lon_two) = Some d ->
  Qle_bool d 50 = true ->
  find_closest_gauges geodesic (Some (load_gage_data table_ties))
                      target_lat target_lon (Fin 50) =
  [ set_distance (load_row summary_upstream) (Fin d);
    set_distance (load_row summary_downstream) (Fin d) ].
Proof.
  intros Hgeo Hle.
  assert (Hrefl : Qle_bool d d = true) by (apply Qle_bool_iff, Qle_refl).
  cbn -[Qle_bool]. rewrite !Hgeo. cbn -[Qle_bool]. rewrite !Hle.
  cbn -[Qle_bool]. rewrite Hrefl. reflexivity.
Qed.

(** C5, as stated, fails on its tie rule: two gauges at the same distance
    from the target come out in the order of the table, the larger
    identifier first. *)
Lemma C5_equal_distances_not_ordered_by_gauge_id :
  ~ ties_by_gauge_id
      (find_closest_gauges geodesic_known (Some (load_gage_data table_ties))
                           target_lat target_lon (Fin 50)).
Proof.
  rewrite (equal_distances_keep_table_order geodesic_known 0) by reflexivity.
  intros Hties.
  specialize (Hties 0%nat 1%nat _ _ ltac:(lia) eq_refl eq_refl eq_refl eq_refl).
  vm_compute in Hties. discriminate.
Qed.

Lemma C10_failed_distance_is_infinite_and_excluded_witness :
  center_lat (load_row summary_bad_latitude) = Fin 95
  /\ center_lon (load_row summary_bad_latitude) = Fin (-434 # 5)
  /\ geodesic_known (target_lat, target_lon) (95, -434 # 5)%Q = None
  /\ row_distance geodesic_known target_lat target_lon
       (load_row summary_bad_latitude) = PInf
  /\ forall d : float,
       set_distance (load_row summary_bad_latitude) d ∉
         find_closest_gauges geodesic_known
           (Some (load_gage_data [summary_upstream; summary_bad_latitude]))
           target_lat target_lon (Fin 50).
Proof.
  split; [reflexivity |]. split; [reflexivity |]. split; [reflexivity |].
  exact (C10_failed_distance_is_infinite_and_excluded geodesic_known
           (load_gage_data [summary_upstream; summary_bad_latitude])
           target_lat target_lon 50 (load_row summary_bad_latitude)
           95 (-434 # 5) eq_refl eq_refl eq_refl).
Defined.

Lemma gages_with_columns :
  Forall (fun g : gmap string cell =>
            is_Some (g !! "longitude") /\ is_Some (g !! "latitude"))
         [gage_two; gage_no_vertices].
Proof. repeat constructor; eexists; reflexivity. Qed.

Lemma C7_footprint_without_vertices_witness :
  [claim_nashville] <> []
  /\ Forall (fun g : gmap string cell =>
              is_Some (g !! "longitude") /\ is_Some (g !! "latitude"))
         [gage_two; gage_no_vertices]
  /\ literal_eval (CStr "[]" (Literal (PSeq []))) = Some (PSeq [])
  /\ (exists rows row,
        main [claim_nashville] [gage_two; gage_no_vertices] = Some rows /\
        rows !! 1%nat = Some row /\
        row !! "longitude" = Some (VCell (CStr "[]" (Literal (PSeq [])))) /\
        row !! "latitude" = Some (VCell (CStr "[]" (Literal (PSeq [])))) /\
        row !! "dates" = Some (VDates []) /\ row !! "num_claims" = Some (VCounts []))
  /\ (center_lon (load_row summary_no_vertices) = NaN \/
      center_lat (load_row summary_no_vertices) = NaN)
  /\ forall out,
       out ∈ find_closest_gauges geodesic_known
               (load_gage_data <$> Some [summary_upstream; summary_no_vertices])
               target_lat target_lon (Fin 50) ->
       base out <> summary_no_vertices.
Proof.
  split; [discriminate |]. split; [exact gages_with_columns |].
  split; [reflexivity |].
  exact (C7_footprint_without_vertices geodesic_known [claim_nashville]
           [gage_two; gage_no_vertices] 1 gage_no_vertices
           (CStr "[]" (Literal (PSeq []))) (CStr "[]" (Literal (PSeq [])))
           (Some [summary_upstream; summary_no_vertices]) summary_no_vertices
           target_lat target_lon (Fin 50)
           ltac:(discriminate) gages_with_columns
           eq_refl eq_refl eq_refl eq_refl eq_refl eq_refl).
Defined.

(** C7, as stated, fails where no claim is left after the cleaning: the
    tree cannot be built, and the run raises before it reads the record of
    the footprint without vertices; no row is produced for it. *)
Lemma C7_no_row_without_claims :
  gage_no_vertices !! "longitude" = Some (CStr "[]" (Literal (PSeq [])))
  /\ gage_no_vertices !! "latitude" = Some (CStr "[]" (Literal (PSeq [])))
  /\ parse_coord (CStr "[]" (Literal (PSeq []))) = []
  /\ BallTree (claim_points_rad []) = None
  /\ main [] [gage_no_vertices] = None.
Proof. repeat split. Qed.

(** The timeline of the two gauges keeps the order of the rows: the event
    of 2020 of the first gauge precedes the events of 2005 and 2010 of the
    second. *)
Lemma timeline_not_sorted_across_gauges :
  map e_date (create_claims_timeline (load_gage_data table_ties)) =
  [to_datetime day_2020_05_01; to_datetime day_2005_08_29; to_datetime day_2010_05_02].
Proof. reflexivity. Qed.

End QueryExamples.

(** ** The cleaning of the claims table *)

Section Cleaning.

Import Batch Ingest.

Variable guess_datetime_format : string → option string.
Variable parse_text : option string → string → option Timestamp.

Implicit Types (raw : list RawClaim) (c : RawClaim).




Lemma usable_incomplete (format : option string) c :
  raw_longitude c = None \/ raw_latitude c = None \/ raw_dateOfLoss c = DNaN ->
  usable parse_text format c = None.
Proof.
  unfold usable. intros [-> | [-> | ->]]; [done | |].
  - by destruct (raw_longitude c).
  - by destruct (raw_longitude c), (raw_latitude c).
Qed.



End Cleaning.

(** ** Tables without a coordinate column *)

Section MissingColumn.

Import Batch.

Implicit Types (claims : list Claim) (gages : list (gmap string cell)).



End MissingColumn.

(** ** What a group of the date grouping holds *)

Section GroupContents.

Import Batch Ingest.

Implicit Types (groups : list (Timestamp * nat)) (t k : Timestamp).
Implicit Types (keys : list Timestamp) (claims : list Claim) (ind : list nat).

Lemma counted_cons k (k' : Timestamp) (c : nat) groups :
  counted k ((k', c) :: groups) =
  ((if (k' =? k)%Z then c else 0) + counted k groups)%nat.
Proof. reflexivity. Qed.

Lemma counted_count_key k t groups :
  counted k (count_key t groups) =
  ((if (t =? k)%Z then 1 else 0) + counted k groups)%nat.
Proof.
  induction groups as [| [k' c] rest IH].
  - cbn [count_key]. rewrite counted_cons. done.
  - cbn [count_key].
    destruct (Z.ltb_spec t k'); [by rewrite counted_cons |].
    destruct (Z.eqb_spec t k') as [-> | Hne].
    + rewrite !counted_cons. destruct (k' =? k)%Z; lia.
    + rewrite !counted_cons, IH. lia.
Qed.

Lemma counted_groupby_from k keys groups :
  counted k (fold_left (fun g t => count_key t g) keys groups) =
  (counted k groups + count_occ Z.eq_dec keys k)%nat.
Proof.
  revert groups. induction keys as [| t keys IH]; intros groups; cbn [fold_left count_occ].
  - lia.
  - rewrite IH, counted_count_key.
    destruct (Z.eq_dec t k) as [-> | Hne].
    + rewrite Z.eqb_refl. lia.
    + destruct (Z.eqb_spec t k); [done | lia].
Qed.

Lemma count_key_positive t groups :
  Forall (fun kc => (0 < kc.2)%nat) groups ->
  Forall (fun kc => (0 < kc.2)%nat) (count_key t groups).
Proof.
  induction 1 as [| [k c] rest Hc Hrest IH]; cbn [count_key].
  - repeat constructor.
  - destruct (t <? k)%Z; [repeat constructor; done |].
    destruct (t =? k)%Z; constructor; cbn in *; try done; lia.
Qed.

Lemma groupby_size_positive keys :
  Forall (fun kc => (0 < kc.2)%nat) (groupby_size keys).
Proof.
  unfold groupby_size.
  assert (Hgen : forall groups,
             Forall (fun kc : Timestamp * nat => (0 < kc.2)%nat) groups ->
             Forall (fun kc : Timestamp * nat => (0 < kc.2)%nat)
                    (fold_left (fun g t => count_key t g) keys groups)).
  { induction keys as [| t keys IH]; intros groups Hg; cbn; [done |].
    by apply IH, count_key_positive. }
  apply Hgen. constructor.
Qed.

Lemma counted_none k groups :
  Forall (fun k' => (k < k')%Z) groups.*1 -> counted k groups = 0%nat.
Proof.
  induction groups as [| [k' c] rest IH]; [done |].
  rewrite fmap_cons, counted_cons. intros [Hk Hrest]%Forall_cons. cbn in Hk.
  destruct (Z.eqb_spec k' k); [lia |]. by rewrite IH.
Qed.

(** Among groups of strictly ascending keys, a key has one group only. *)
Lemma counted_of_group k (c : nat) groups :
  StronglySorted Z.lt groups.*1 -> (k, c) ∈ groups -> counted k groups = c.
Proof.
  induction groups as [| [k' c'] rest IH]; [by intros _ ?%not_elem_of_nil |].
  rewrite fmap_cons, counted_cons. intros Hs Hin.
  apply StronglySorted_inv in Hs as [Hrest Hall]. cbn in Hall.
  apply elem_of_cons in Hin as [[= <- <-] | Hin].
  - rewrite Z.eqb_refl, counted_none by done. lia.
  - rewrite IH by done.
    assert (Hlt : (k' < k)%Z).
    { rewrite Forall_forall in Hall. apply Hall.
      apply list_elem_of_fmap. by exists (k, c). }
    destruct (Z.eqb_spec k' k); [lia | done].
Qed.

Lemma group_of_counted k groups :
  (0 < counted k groups)%nat -> exists c, (k, c) ∈ groups.
Proof.
  induction groups as [| [k' c'] rest IH]; [cbn; lia |].
  rewrite counted_cons.
  destruct (Z.eqb_spec k' k) as [-> | Hne].
  - intros _. exists c'. by left.
  - intros Hpos. destruct IH as [c Hc]; [lia |]. exists c. by right.
Qed.

(** [groupby(key).size()] has one group for each distinct key, which
    counts the rows carrying that key. *)
Lemma groupby_size_groups keys t (c : nat) :
  (t, c) ∈ groupby_size keys <-> (0 < c)%nat /\ c = count_occ Z.eq_dec keys t.
Proof.
  pose proof (groupby_size_sorted keys) as Hs.
  apply Sorted_StronglySorted in Hs.
  2:{ intros x y z. lia. }
  pose proof (counted_groupby_from t keys []) as Hc. fold (groupby_size keys) in Hc.
  change (counted t []) with 0%nat in Hc. split.
  - intros Hin. split.
    + pose proof (groupby_size_positive keys) as Hpos.
      rewrite Forall_forall in Hpos. by apply (Hpos (t, c)).
    + rewrite <- (counted_of_group t c (groupby_size keys)) by done. lia.
  - intros [Hpos ->].
    destruct (group_of_counted t (groupby_size keys)) as [c Hin]; [lia |].
    pose proof (counted_of_group t c (groupby_size keys) Hs Hin) as Hcc.
    by replace (count_occ Z.eq_dec keys t) with c by lia.
Qed.

End GroupContents.

(** ** The entries of one vertex: one for each loss timestamp *)

Section VertexEntries.

Import Batch.

Implicit Types (claims cs : list Claim) (ind : list nat) (v : Q * Q).
Implicit Types (keys : list Timestamp) (d : Date) (t : Timestamp).

Lemma elem_of_groupby_keys keys t : t ∈ (groupby_size keys).*1 <-> t ∈ keys.
Proof.
  rewrite list_elem_of_fmap. split.
  - intros ([t' c] & -> & Hin). apply groupby_size_groups in Hin as [Hpos ->].
    apply list_elem_of_In, (count_occ_In Z.eq_dec). cbn. lia.
  - intros Hin. apply list_elem_of_In, (count_occ_In Z.eq_dec) in Hin.
    exists (t, count_occ Z.eq_dec keys t). split; [done |].
    apply groupby_size_groups. split; [lia | done].
Qed.

Lemma NoDup_groupby_keys keys : NoDup (groupby_size keys).*1.
Proof.
  pose proof (groupby_size_sorted keys) as Hs.
  apply Sorted_StronglySorted in Hs.
  2:{ intros x y z. lia. }
  induction Hs as [| k rest Hrest IH Hall]; constructor; [| done].
  intros Hin. rewrite Forall_forall in Hall. specialize (Hall k Hin). lia.
Qed.

(** X4: The number of entries that a vertex adds to the lists of its gauge is
    the number of distinct loss timestamps among the claims it matched: the
    grouping is by timestamp, the time of day is dropped only afterwards. *)
Theorem vertex_entries_per_timestamp claims v :
  length (vertex_block claims v).1 =
  length (remove_dups (map dateOfLoss (iloc claims (vertex_matches claims v)))).
Proof.
  unfold vertex_block, date_counts. cbn [fst]. rewrite length_map.
  rewrite <- (length_fmap fst).
  apply Permutation_length, NoDup_Permutation.
  - apply NoDup_groupby_keys.
  - apply NoDup_remove_dups.
  - intros t. by rewrite elem_of_groupby_keys, elem_of_remove_dups.
Qed.

Lemma midnight_day t :
  (t `mod` ns_per_day = 0)%Z -> t = (strftime_ymd t * ns_per_day)%Z.
Proof.
  intros Hm. unfold strftime_ymd.
  pose proof (Z.div_mod t ns_per_day) as Hdm. unfold ns_per_day in *. lia.
Qed.

Lemma strftime_midnight d : strftime_ymd (d * ns_per_day)%Z = d.
Proof. unfold strftime_ymd, ns_per_day. by rewrite Z.div_mul. Qed.

Lemma sorted_days keys :
  Forall (fun t => (t `mod` ns_per_day = 0)%Z) keys ->
  Sorted Z.lt keys -> Sorted Z.lt (strftime_ymd <$> keys).
Proof.
  intros Hm Hs. induction Hs as [| t rest Hrest IH Hhd]; [constructor |].
  apply Forall_cons in Hm as [Ht Hm]. cbn. constructor; [by apply IH |].
  destruct Hhd as [| t' rest' Hlt]; cbn; constructor.
  apply Forall_cons in Hm as [Ht' _].
  apply midnight_day in Ht, Ht'. unfold ns_per_day in *. nia.
Qed.

Lemma count_occ_claims_on d cs :
  Forall (fun c => (dateOfLoss c `mod` ns_per_day = 0)%Z) cs ->
  count_occ Z.eq_dec (map dateOfLoss cs) (d * ns_per_day)%Z = claims_on d cs.
Proof.
  unfold claims_on. induction 1 as [| c cs Hc _ IH]; [done |].
  cbn [map count_occ List.filter].
  destruct (Z.eq_dec (dateOfLoss c) (d * ns_per_day)%Z) as [Heq | Hne].
  - rewrite Heq, strftime_midnight, Z.eqb_refl. cbn. by rewrite IH.
  - destruct (Z.eqb_spec (strftime_ymd (dateOfLoss c)) d) as [Hd | _]; [| done].
    apply midnight_day in Hc. congruence.
Qed.

Lemma Forall_iloc (P : Claim -> Prop) claims ind :
  Forall P claims -> Forall P (iloc claims ind).
Proof.
  rewrite !Forall_forall. intros HP c Hc. unfold iloc in Hc.
  apply list_elem_of_omap in Hc as (i & _ & Hi).
  apply HP. by eapply list_elem_of_lookup_2.
Qed.

(** X5: When every loss timestamp is a midnight, as it is for dates read from
    day texts, the entries of a vertex are one for each day on which a
    matched claim was lost, in strictly ascending order of the days, each
    with the number of matched claims of that day. *)
Theorem vertex_pairs_per_day claims v :
  Forall (fun c => (dateOfLoss c `mod` ns_per_day = 0)%Z) claims ->
  Sorted Z.lt (vertex_pairs claims v).*1
  /\ forall d (c : nat),
       (d, c) ∈ vertex_pairs claims v <->
       (0 < c)%nat /\ c = claims_on d (iloc claims (vertex_matches claims v)).
Proof.
  intros Hmid. unfold vertex_pairs.
  set (matched := iloc claims (vertex_matches claims v)).
  assert (Hm : Forall (fun c => (dateOfLoss c `mod` ns_per_day = 0)%Z) matched)
    by by apply Forall_iloc.
  assert (Hkeys : Forall (fun t => (t `mod` ns_per_day = 0)%Z)
                         (groupby_size (map dateOfLoss matched)).*1).
  { apply Forall_forall. intros t Ht.
    apply (proj1 (elem_of_groupby_keys _ _)) in Ht.
    apply (proj1 (list_elem_of_fmap _ _ _)) in Ht as (c & -> & Hc).
    rewrite Forall_forall in Hm. by apply Hm. }
  split.
  - replace ((map (fun kc : Timestamp * nat => (strftime_ymd kc.1, kc.2))
                  (groupby_size (map dateOfLoss matched))).*1)
      with (strftime_ymd <$> (groupby_size (map dateOfLoss matched)).*1).
    + apply sorted_days; [done | apply groupby_size_sorted].
    + change (map ?f ?l) with (f <$> l). by rewrite <- !list_fmap_compose.
  - intros d c. change (map ?f ?l) with (f <$> l). rewrite list_elem_of_fmap. split.
    + intros ([t c'] & [= -> ->] & Hin). cbn [fst snd].
      assert (Ht : (t `mod` ns_per_day = 0)%Z).
      { rewrite Forall_forall in Hkeys. apply Hkeys.
        apply list_elem_of_fmap. by exists (t, c'). }
      apply groupby_size_groups in Hin as [Hpos ->]. split; [done |].
      rewrite (midnight_day t Ht) at 1. by apply count_occ_claims_on.
    + intros [Hpos ->]. exists ((d * ns_per_day)%Z, claims_on d matched).
      cbn [fst snd]. rewrite strftime_midnight. split; [done |].
      apply groupby_size_groups. split; [done |].
      symmetry. by apply count_occ_claims_on.
Qed.

End VertexEntries.

(** ** Which gauges a query returns *)

Section Returned.

Import Interactive.

Variable geodesic : Q * Q → Q * Q → option Q.

Implicit Types (df : list row) (r out : row) (target_lat target_lon : Q).

Lemma elem_of_concat {A} (x : A) (ls : list (list A)) :
  x ∈ concat ls <-> exists l, x ∈ l /\ l ∈ ls.
Proof.
  rewrite list_elem_of_In, in_concat. split.
  - intros (l & Hl & Hx). exists l. by rewrite !list_elem_of_In.
  - intros (l & Hx & Hl). exists l. by rewrite <- !list_elem_of_In.
Qed.

Lemma fle_trans (a b c : float) : fle a b = true -> fle b c = true -> fle a c = true.
Proof. destruct a, b, c; cbn; try done. apply Qle_bool_trans. Qed.

Lemma elem_of_find_closest_gauges df target_lat target_lon (max_distance_km : float) out :
  out ∈ find_closest_gauges geodesic (Some df) target_lat target_lon max_distance_km <->
  exists r, r ∈ df
    /\ isna (center_lat r) = false /\ isna (center_lon r) = false
    /\ out = set_distance r (row_distance geodesic target_lat target_lon r)
    /\ fle (row_distance geodesic target_lat target_lon r) max_distance_km = true.
Proof.
  split; [apply find_closest_gauges_elem |].
  intros (r & Hr & Hlat & Hlon & -> & Hle).
  rewrite find_closest_gauges_sorted_filter, sort_values_perm.
  unfold within_radius. apply list_elem_of_In, filter_In. split; [| done].
  apply in_map_iff. exists r. split; [done |].
  unfold dropna_centers. apply filter_In. split; [by apply list_elem_of_In |].
  by rewrite Hlat, Hlon.
Qed.

(** X7: A row is in the answer for a finite radius exactly when it stems from a
    row of the table whose centre has both coordinates, for which geopy
    computed a distance, and that distance is at most the radius; the row of
    the answer is the row of the table with this distance added. *)
Theorem returned_iff_within_radius df target_lat target_lon (max_km : Q) out :
  out ∈ find_closest_gauges geodesic (Some df) target_lat target_lon (Fin max_km) <->
  exists r (clat clon d : Q),
    r ∈ df /\ center_lat r = Fin clat /\ center_lon r = Fin clon
    /\ geodesic (target_lat, target_lon) (clat, clon) = Some d
    /\ (d <= max_km)%Q
    /\ out = set_distance r (Fin d).
Proof.
  rewrite elem_of_find_closest_gauges. unfold row_distance. split.
  - intros (r & Hr & _ & _ & -> & Hle). exists r.
    destruct (center_lat r) as [clat | |] eqn:Hlat; try done.
    destruct (center_lon r) as [clon | |] eqn:Hlon; try done.
    destruct (geodesic _ _) as [d |] eqn:Hgeo; [| done].
    exists clat, clon, d. cbn in Hle. apply Qle_bool_iff in Hle. done.
  - intros (r & clat & clon & d & Hr & Hlat & Hlon & Hgeo & Hle & ->).
    exists r. rewrite Hlat, Hlon, Hgeo. cbn.
    apply Qle_bool_iff in Hle. done.
Qed.

(** X8: Enlarging the radius loses no gauge: a row of the answer for a radius
    is, with the same distance, a row of the answer for every radius that is
    at least as large. *)
Theorem larger_radius_keeps_gauges
    (df : option (list row)) target_lat target_lon (small large : float) out :
  fle small large = true ->
  out ∈ find_closest_gauges geodesic df target_lat target_lon small ->
  out ∈ find_closest_gauges geodesic df target_lat target_lon large.
Proof.
  intros Hle. destruct df as [df |]; [| done].
  rewrite !elem_of_find_closest_gauges.
  intros (r & Hr & Hlat & Hlon & -> & Hd). exists r.
  repeat split; try done. by eapply fle_trans.
Qed.

(** X9: The timeline of an answer lists its events by ascending distance, the
    events of a nearer gauge before those of a farther one, and the distance
    of every event is within the radius of the query. *)
Theorem timeline_of_answer_by_distance
    (df : option (list row)) target_lat target_lon (max_distance_km : float) :
  let timeline :=
    create_claims_timeline
      (find_closest_gauges geodesic df target_lat target_lon max_distance_km) in
  StronglySorted (fun e1 e2 => fle (e_distance_km e1) (e_distance_km e2) = true)
                 timeline
  /\ Forall (fun e => fle (e_distance_km e) max_distance_km = true) timeline.
Proof.
  cbn zeta.
  set (nearby := find_closest_gauges geodesic df target_lat target_lon max_distance_km).
  assert (Hsorted : StronglySorted by_distance nearby).
  { destruct df as [df |]; [| constructor].
    unfold nearby. rewrite find_closest_gauges_sorted_filter.
    apply sort_values_by_distance, within_radius_not_nan. }
  assert (Hin : Forall (fun r => exists d, distance_km r = Some d /\
                                          fle d max_distance_km = true) nearby).
  { apply Forall_forall. intros out Hout. destruct df as [df |]; [| by inversion Hout].
    apply find_closest_gauges_elem in Hout as (r & _ & _ & _ & -> & Hle).
    eexists. split; [reflexivity | exact Hle]. }
  assert (Hev : forall r e, e ∈ row_events r ->
                  e_distance_km e = default (Fin 0) (distance_km r)).
  { intros r e He. unfold row_events in He.
    apply list_elem_of_fmap in He as (dc & -> & _). reflexivity. }
  unfold create_claims_timeline. rewrite fold_timeline_step. cbn [app].
  clearbody nearby. split.
  - induction Hsorted as [| r rest Hrest IH Hall]; [constructor |].
    apply Forall_cons in Hin as [(d & Hd & Hdle) Hin].
    cbn [map concat]. apply StronglySorted_app_2; [| | by apply IH].
    + intros e1 e2 He1 He2. rewrite (Hev r e1 He1), Hd. cbn.
      apply elem_of_concat in He2 as (evs & He2 & Hevs).
      apply list_elem_of_fmap in Hevs as (r2 & -> & Hr2).
      rewrite (Hev r2 e2 He2).
      rewrite Forall_forall in Hall, Hin.
      destruct (Hin r2 Hr2) as (d2 & Hd2 & _). rewrite Hd2. cbn.
      specialize (Hall r2 Hr2). unfold by_distance, distance_col in Hall.
      by rewrite Hd, Hd2 in Hall.
    + assert (Hrefl : fle d d = true) by (destruct d, max_distance_km; cbn in *;
                                           try done; apply Qle_bool_iff, Qle_refl).
      assert (Hall' : Forall (fun e => e_distance_km e = d) (row_events r)).
      { apply Forall_forall. intros e He. by rewrite (Hev r e He), Hd. }
      clear -Hall' Hrefl.
      induction Hall' as [| e es He Hes IHes]; constructor; [exact IHes |].
      apply Forall_forall. intros e' He'. rewrite Forall_forall in Hes.
      by rewrite He, (Hes e' He').
  - apply Forall_forall. intros e He.
    apply elem_of_concat in He as (evs & He & Hevs).
    apply list_elem_of_fmap in Hevs as (r & -> & Hr).
    rewrite Forall_forall in Hin. destruct (Hin r Hr) as (d & Hd & Hdle).
    by rewrite (Hev r e He), Hd.
Qed.

End Returned.

(** ** The metrics and the timeline of an answer *)

Section Metrics.

Import Interactive App.

Variable geodesic : Q * Q → Q * Q → option Q.

Implicit Types (table : list summary) (s : summary) (r out : row).
Implicit Types (nearby : list row).

Lemma answer_rows_loaded (table : option (list summary)) target_lat target_lon
    (max_distance_km : float) :
  Forall (fun out => loaded out /\ exists s, base out = s /\
                       from_option (fun t => s ∈ t) False table)
         (find_closest_gauges geodesic (load_gage_data <$> table)
                              target_lat target_lon max_distance_km).
Proof.
  apply Forall_forall. intros out Hout.
  destruct table as [table |]; [| by inversion Hout]. cbn in Hout.
  apply find_closest_gauges_elem in Hout as (r & Hr & _ & _ & -> & _).
  unfold load_gage_data in Hr.
  apply list_elem_of_In, in_map_iff in Hr as (s & <- & Hs).
  split; [by split |]. exists s. split; [done |]. by apply list_elem_of_In.
Qed.

Lemma length_timeline nearby :
  length (create_claims_timeline nearby) =
  sum_list (map (fun r => length (dates (base r)) `min` length (num_claims (base r)))
                nearby).
Proof.
  unfold create_claims_timeline. rewrite fold_timeline_step. cbn [app].
  induction nearby as [| r nearby IH]; [done |].
  cbn [map concat]. rewrite length_app, IH. unfold row_events.
  by rewrite length_map, length_zip_with.
Qed.

Lemma claims_of_row_events r :
  length (dates (base r)) = length (num_claims (base r)) ->
  foldr Z.add 0%Z (e_claims <$> row_events r) = foldr Z.add 0%Z (num_claims (base r)).
Proof.
  unfold row_events. generalize (dates (base r)) (num_claims (base r)).
  induction l as [| d ds IH]; intros [| c cs] Hlen; try discriminate; [done |].
  cbn in *. f_equal. apply IH. lia.
Qed.

Lemma foldr_add_app (l k : list Z) :
  foldr Z.add 0%Z (l ++ k) = (foldr Z.add 0%Z l + foldr Z.add 0%Z k)%Z.
Proof. induction l as [| x l IH]; cbn; lia. Qed.

(** X10: The metrics of a displayed answer agree with its timeline when the two
    lists of every row of the table have the same length: "Total Events" is
    the number of events of the timeline, and "Total Claims" is the sum of
    their claims.  Without that, the timeline can only be shorter than
    "Total Events" says. *)
Theorem metrics_agree_with_timeline (table : option (list summary))
    target_lat target_lon (max_distance_km : float) :
  let nearby := find_closest_gauges geodesic (load_gage_data <$> table)
                                    target_lat target_lon max_distance_km in
  (length (create_claims_timeline nearby) <= num_events_sum nearby)%nat
  /\ (from_option (Forall (fun s => length (dates s) = length (num_claims s)))
                  True table ->
      length (create_claims_timeline nearby) = num_events_sum nearby
      /\ foldr Z.add 0%Z (e_claims <$> create_claims_timeline nearby) =
         total_claims_sum nearby).
Proof.
  cbn zeta.
  pose proof (answer_rows_loaded table target_lat target_lon max_distance_km) as Hrows.
  set (nearby := find_closest_gauges _ _ _ _ _) in *. clearbody nearby.
  split.
  - rewrite length_timeline. unfold num_events_sum.
    induction Hrows as [| r rest [[_ Hev] _] _ IH]; [done |].
    cbn. rewrite Hev. cbn in IH. lia.
  - intros Hpar.
    assert (Hrows' : Forall (fun r => loaded r /\
                       length (dates (base r)) = length (num_claims (base r))) nearby).
    { eapply Forall_impl; [exact Hrows |]. cbn.
      intros r [Hl (s & <- & Hs)]. split; [done |].
      destruct table as [t |]; [| done]. cbn in Hs, Hpar.
      rewrite Forall_forall in Hpar. by apply Hpar. }
    clear Hrows Hpar. split.
    + rewrite length_timeline. unfold num_events_sum.
      induction Hrows' as [| r rest [[_ Hev] Hlen] _ IH]; [done |].
      cbn. rewrite Hev. cbn in IH. lia.
    + unfold create_claims_timeline, total_claims_sum.
      rewrite fold_timeline_step. cbn [app].
      induction Hrows' as [| r rest [[Htot _] Hlen] _ IH]; [done |].
      cbn [map concat fmap list_fmap foldr]. rewrite fmap_app, foldr_add_app.
      rewrite claims_of_row_events by done. cbn in IH. rewrite IH, Htot. done.
Qed.

End Metrics.

(** ** The session of the application *)

Section Session.

Import Interactive App.

Variable geodesic : Q * Q → Q * Q → option Q.

Implicit Types (st : session) (runs : list run).

Lemma main_session (r : run) st :
  (main geodesic (run_df r) (run_lat r) (run_lon r) (run_max_distance r)
        (run_button r) st).1 = st
  \/ exists nearby,
       (main geodesic (run_df r) (run_lat r) (run_lon r) (run_max_distance r)
             (run_button r) st).1 = Some (nearby, (run_lat r, run_lon r))
       /\ nearby <> [] /\ run_button r = true
       /\ nearby = find_closest_gauges geodesic (run_df r) (run_lat r) (run_lon r)
                      (Fin (inject_Z (run_max_distance r))).
Proof.
  unfold main. destruct (run_df r) as [df |] eqn:Hdf; [| by left].
  destruct (run_button r); [| by left].
  destruct (find_closest_gauges _ _ _ _ _) as [| out rest] eqn:Hfind; [by left |].
  right. by exists (out :: rest).
Qed.

(** X14: Whatever the runs of a session were, a result kept in the session state
    is never empty: it is the answer of one of the searches made, with the
    target of that search, and hence sorted by distance.  A run that shows
    results therefore always shows the map. *)
Theorem stored_result_never_empty runs :
  from_option
    (fun stored : list row * (Q * Q) =>
       stored.1 <> []
       /\ StronglySorted by_distance stored.1
       /\ exists r, r ∈ runs /\ run_button r = true /\
            stored.1 = find_closest_gauges geodesic (run_df r) (run_lat r) (run_lon r)
                         (Fin (inject_Z (run_max_distance r))) /\
            stored.2 = (run_lat r, run_lon r))
    True (session_after geodesic runs None).
Proof.
  assert (Hgen : forall done st, stored_by geodesic done st ->
                   stored_by geodesic (done ++ runs) (session_after geodesic runs st)).
  { induction runs as [| r rest IH]; intros done st Hst.
    - rewrite app_nil_r. exact Hst.
    - cbn [session_after fold_left].
      replace (done ++ r :: rest) with ((done ++ [r]) ++ rest)
        by (by rewrite <- app_assoc).
      apply IH.
      destruct (main_session r st) as [-> | (nearby & -> & Hne & Hb & Hfind)].
      + destruct st as [stored |]; [| done]. unfold stored_by in *. cbn in *.
        destruct Hst as (Hne & r0 & Hr0 & Hrest). split; [done |].
        exists r0. split; [| done]. apply elem_of_app. by left.
      + unfold stored_by. cbn. split; [done |]. exists r. split; [| done].
        apply elem_of_app. right. by left. }
  specialize (Hgen [] None I). cbn [app] in Hgen. unfold stored_by in Hgen.
  destruct (session_after geodesic runs None) as [stored |]; [| done]. cbn in *.
  destruct Hgen as (Hne & r & Hr & Hb & Hfind & Htgt).
  split; [done |]. split; [| by exists r].
  rewrite Hfind. destruct (run_df r) as [df |]; [| constructor].
  rewrite find_closest_gauges_sorted_filter.
  apply sort_values_by_distance, within_radius_not_nan.
Qed.

End Session.

(** ** What a run shows *)

Section Shown.

Import Interactive App.

Variable geodesic : Q * Q → Q * Q → option Q.

Implicit Types (df : list row) (st : session) (nearby : list row).

Lemma find_closest_gauges_nil df target_lat target_lon (max_distance_km : float) :
  (forall r, r ∈ df ->
     isna (center_lat r) = true \/ isna (center_lon r) = true \/
     fle (row_distance geodesic target_lat target_lon r) max_distance_km = false) ->
  find_closest_gauges geodesic (Some df) target_lat target_lon max_distance_km = [].
Proof.
  intros Hnone.
  destruct (find_closest_gauges _ _ _ _ _) as [| out rest] eqn:Hfind; [done |].
  assert (Hout : out ∈ find_closest_gauges geodesic (Some df) target_lat target_lon
                         max_distance_km) by (rewrite Hfind; by left).
  apply find_closest_gauges_elem in Hout as (r & Hr & Hlat & Hlon & _ & Hle).
  destruct (Hnone r Hr) as [? | [? | ?]]; congruence.
Qed.

(** X15: A search that finds no gauge within the radius shows the warning and
    leaves the session state as it was, so that the run goes on to display
    the result of the earlier search, with its target, under the radius that
    the slider has now. *)
Theorem empty_search_keeps_earlier_result
    df target_lat target_lon (max_distance : Z) st :
  (forall r, r ∈ df ->
     isna (center_lat r) = true \/ isna (center_lon r) = true \/
     fle (row_distance geodesic target_lat target_lon r)
         (Fin (inject_Z max_distance)) = false) ->
  main geodesic (Some df) target_lat target_lon max_distance true st =
  (st, {| load_error := false;
          no_gauges_warning := true;
          shown := display max_distance <$> st |}).
Proof.
  intros Hnone. unfold main.
  by rewrite (find_closest_gauges_nil df target_lat target_lon _ Hnone).
Qed.

Lemma timeline_not_empty nearby :
  Forall (fun r => loaded r /\
                   length (dates (base r)) = length (num_claims (base r))) nearby ->
  (0 < total_claims_sum nearby)%Z ->
  create_claims_timeline nearby <> [].
Proof.
  unfold create_claims_timeline, total_claims_sum.
  rewrite fold_timeline_step. cbn [app].
  induction 1 as [| r rest [[Htot _] Hlen] _ IH]; cbn; [lia |].
  intros Hpos. unfold row_events at 1.
  destruct (dates (base r)) as [| d ds] eqn:Hd,
           (num_claims (base r)) as [| c cs] eqn:Hc; cbn in Hlen; try lia.
  - cbn in Htot. rewrite Htot in Hpos. cbn. apply IH. lia.
  - done.
Qed.

(** X16: When the two lists of every row of the table have the same length, the
    note that no flood events were found is never shown: a positive "Total
    Claims" comes with at least one event in the timeline. *)
Theorem no_events_note_not_shown (table : option (list summary))
    target_lat target_lon (max_distance_km : float) :
  from_option (Forall (fun s => length (dates s) = length (num_claims s)))
              True table ->
  timeline_section
    (find_closest_gauges geodesic (load_gage_data <$> table)
                         target_lat target_lon max_distance_km) <> NoEvents.
Proof.
  intros Hpar.
  pose proof (answer_rows_loaded geodesic table target_lat target_lon
                max_distance_km) as Hrows.
  set (nearby := find_closest_gauges _ _ _ _ _) in *.
  assert (Hrows' : Forall (fun r => loaded r /\
                     length (dates (base r)) = length (num_claims (base r))) nearby).
  { eapply Forall_impl; [exact Hrows |]. cbn.
    intros r [Hl (s & <- & Hs)]. split; [done |].
    destruct table as [t |]; [| done]. cbn in Hs, Hpar.
    rewrite Forall_forall in Hpar. by apply Hpar. }
  unfold timeline_section.
  destruct (0 <? total_claims_sum nearby)%Z eqn:Hpos; [| done].
  apply Z.ltb_lt in Hpos.
  pose proof (timeline_not_empty nearby Hrows' Hpos) as Hne.
  by destruct (create_claims_timeline nearby).
Qed.

End Shown.

(** ** The filters on the claims table *)

Section ExtractFilters.

Import Extract.

Variable load_good_claims : option (list claim_row).

Implicit Types (df : option (list claim_row)) (r : claim_row).

(** X18: A bounding box whose lower latitude or longitude bound lies above the
    upper one holds no claim: the filter returns an empty table, not an
    error. *)
Theorem bounding_box_with_swapped_bounds_is_empty
    df (min_lat max_lat min_lon max_lon : Q) :
  (max_lat < min_lat \/ max_lon < min_lon)%Q ->
  get_claims_by_bounding_box load_good_claims df min_lat max_lat min_lon max_lon =
  (fun _ => []) <$> or_load load_good_claims df.
Proof.
  intros Hswap. unfold get_claims_by_bounding_box.
  destruct (or_load load_good_claims df) as [t |]; [| done]. cbn. f_equal.
  induction (dropna_coords t) as [| r rest IH]; [done |].
  cbn. rewrite IH.
  assert (Hout : in_box min_lat max_lat min_lon max_lon r = false); [| by rewrite Hout].
  unfold in_box. destruct (latitude r) as [lat |], (longitude r) as [lon |]; try done.
  apply Bool.not_true_is_false.
  rewrite !andb_true_iff, !Qle_bool_iff. intros [[[? ?] ?] ?].
  destruct Hswap; lra.
Qed.




End ExtractFilters.

(** ** The lists of a gauge in the batch output and in the loaded table *)

Section BatchLists.

Import Batch.

Implicit Types (claims : list Claim) (lon_arr lat_arr : list Q).

(** X6: Every count that the join lists for a gauge is at least one: a date is
    listed only if a matched claim was lost on it. *)
Theorem listed_counts_positive claims lon_arr lat_arr :
  Forall (fun c => (0 < c)%nat)
         (gage_dates_counts claims (claim_points_rad claims)
                            lon_arr lat_arr).2.
Proof.
  rewrite gage_dates_counts_blocks. cbn [snd].
  induction (zip lon_arr lat_arr) as [| v vs IH]; [constructor |].
  cbn [map concat]. apply Forall_app. split; [| exact IH].
  unfold vertex_block, date_counts. cbn [snd].
  apply Forall_forall. intros c Hc. change (map ?f ?l) with (f <$> l) in Hc.
  apply list_elem_of_fmap in Hc as ([t c'] & -> & Hin).
  pose proof (groupby_size_positive
                (map dateOfLoss (iloc claims (vertex_matches claims v)))) as Hpos.
  rewrite Forall_forall in Hpos. by apply (Hpos (t, c')).
Qed.

Lemma foldr_add_of_nat (l : list nat) :
  foldr Z.add 0%Z (Z.of_nat <$> l) = Z.of_nat (sum_list l).
Proof. induction l as [| n l IH]; cbn; [done |]. rewrite IH. lia. Qed.

(** X11: A row of the persisted table that holds the two lists written by the
    join has lists of equal length; the total that [load_gage_data] computes
    for it is the number of matches of the vertices of the gauge, each match
    of each vertex counted, and its number of events is the number of
    entries of the lists. *)
Theorem loaded_totals_of_batch_lists claims lon_arr lat_arr (s : Interactive.summary) :
  let out := gage_dates_counts claims (claim_points_rad claims)
                               lon_arr lat_arr in
  Interactive.dates s = out.1 ->
  Interactive.num_claims s = Z.of_nat <$> out.2 ->
  length (Interactive.dates s) = length (Interactive.num_claims s)
  /\ Interactive.total_claims (Interactive.load_row s) =
       Z.of_nat (sum_list (map (fun v => length (vertex_matches claims v))
                               (zip lon_arr lat_arr)))
  /\ Interactive.num_events (Interactive.load_row s) =
       length (concat (map (vertex_pairs claims) (zip lon_arr lat_arr))).
Proof.
  cbn zeta. rewrite gage_dates_counts_blocks. cbn [fst snd]. intros Hd Hn.
  destruct (blocks_pairs claims (zip lon_arr lat_arr)) as [H1 H2].
  cbn [Interactive.load_row Interactive.total_claims Interactive.num_events].
  rewrite Hd, Hn. split; [| split].
  - rewrite length_fmap. apply length_blocks.
  - by rewrite foldr_add_of_nat, sum_list_blocks.
  - by rewrite H1, length_fmap.
Qed.

End BatchLists.

(** ** The further properties on concrete inputs *)

Section MoreExamples.

Import Batch Ingest Interactive App Extract Scenario MoreInputs.



Lemma midnight_claims :
  Forall (fun c => (dateOfLoss c `mod` ns_per_day = 0)%Z) [claim_west; claim_east].
Proof. repeat constructor. Qed.

Lemma vertex_pairs_per_day_witness :
  Forall (fun c => (dateOfLoss c `mod` ns_per_day = 0)%Z) [claim_west; claim_east]
  /\ Sorted Z.lt (vertex_pairs [claim_west; claim_east]
                               ((-868 # 10)%Q, (361 # 10)%Q)).*1
  /\ forall d (c : nat),
       (d, c) ∈ vertex_pairs [claim_west; claim_east] ((-868 # 10)%Q, (361 # 10)%Q) <->
       (0 < c)%nat /\
       c = claims_on d (iloc [claim_west; claim_east]
                             (vertex_matches [claim_west; claim_east]
                                             ((-868 # 10)%Q, (361 # 10)%Q))).
Proof.
  split; [exact midnight_claims |].
  exact (vertex_pairs_per_day [claim_west; claim_east] ((-868 # 10)%Q, (361 # 10)%Q)
           midnight_claims).
Defined.

Lemma upstream_in_small_answer :
  set_distance (load_row summary_upstream) (Fin 0) ∈
  find_closest_gauges geodesic_known (Some (load_gage_data table_ties))
                      target_lat target_lon (Fin 10).
Proof.
  assert (Hfind : find_closest_gauges geodesic_known (Some (load_gage_data table_ties))
                    target_lat target_lon (Fin 10) =
                  [ set_distance (load_row summary_upstream) (Fin 0);
                    set_distance (load_row summary_downstream) (Fin 0) ])
    by (vm_compute; reflexivity).
  rewrite Hfind. by left.
Qed.

Lemma larger_radius_keeps_gauges_witness :
  fle (Fin 10) (Fin 50) = true
  /\ set_distance (load_row summary_upstream) (Fin 0) ∈
       find_closest_gauges geodesic_known (Some (load_gage_data table_ties))
                           target_lat target_lon (Fin 10)
  /\ set_distance (load_row summary_upstream) (Fin 0) ∈
       find_closest_gauges geodesic_known (Some (load_gage_data table_ties))
                           target_lat target_lon (Fin 50).
Proof.
  split; [reflexivity |]. split; [exact upstream_in_small_answer |].
  exact (larger_radius_keeps_gauges geodesic_known
           (Some (load_gage_data table_ties)) target_lat target_lon
           (Fin 10) (Fin 50) _ eq_refl upstream_in_small_answer).
Defined.

Lemma nothing_near_far_target :
  forall r, r ∈ load_gage_data table_ties ->
    isna (center_lat r) = true \/ isna (center_lon r) = true \/
    fle (row_distance geodesic_known far_lat far_lon r) (Fin (inject_Z 50)) = false.
Proof.
  intros r Hr. right. right.
  apply elem_of_cons in Hr as [-> | Hr]; [reflexivity |].
  apply elem_of_cons in Hr as [-> | Hr]; [reflexivity |].
  by apply not_elem_of_nil in Hr.
Qed.

Lemma empty_search_keeps_earlier_result_witness :
  (forall r, r ∈ load_gage_data table_ties ->
     isna (center_lat r) = true \/ isna (center_lon r) = true \/
     fle (row_distance geodesic_known far_lat far_lon r) (Fin (inject_Z 50)) = false)
  /\ main geodesic_known (Some (load_gage_data table_ties)) far_lat far_lon 50 true
          (Some ([set_distance (load_row summary_upstream) (Fin 0)],
                 (target_lat, target_lon))) =
     (Some ([set_distance (load_row summary_upstream) (Fin 0)],
            (target_lat, target_lon)),
      {| load_error := false;
         no_gauges_warning := true;
         shown := display 50 <$>
                    Some ([set_distance (load_row summary_upstream) (Fin 0)],
                          (target_lat, target_lon)) |}).
Proof.
  split; [exact nothing_near_far_target |].
  exact (empty_search_keeps_earlier_result geodesic_known
           (load_gage_data table_ties) far_lat far_lon 50 _ nothing_near_far_target).
Defined.

Lemma table_ties_parallel :
  from_option (Forall (fun s => length (dates s) = length (num_claims s)))
              True (Some table_ties).
Proof. cbn. repeat constructor. Qed.

Lemma no_events_note_not_shown_witness :
  from_option (Forall (fun s => length (dates s) = length (num_claims s)))
              True (Some table_ties)
  /\ timeline_section
       (find_closest_gauges geodesic_known (load_gage_data <$> Some table_ties)
                            target_lat target_lon (Fin 50)) <> NoEvents.
Proof.
  split; [exact table_ties_parallel |].
  exact (no_events_note_not_shown geodesic_known (Some table_ties)
           target_lat target_lon (Fin 50) table_ties_parallel).
Defined.

Lemma bounding_box_with_swapped_bounds_is_empty_witness :
  (36 < 37 \/ -86 < -87)%Q
  /\ get_claims_by_bounding_box None (Some [row_nashville; row_no_longitude])
                                37 36 (-87) (-86) =
     (fun _ => []) <$> or_load None (Some [row_nashville; row_no_longitude]).
Proof.
  assert (H : (36 < 37 \/ -86 < -87)%Q) by (left; reflexivity).
  split; [exact H |].
  exact (bounding_box_with_swapped_bounds_is_empty None
           (Some [row_nashville; row_no_longitude]) 37 36 (-87) (-86) H).
Defined.

Lemma loaded_totals_of_batch_lists_witness :
  dates summary_two =
    (gage_dates_counts [claim_nashville] (claim_points_rad [claim_nashville])
                       lon_two lat_two).1
  /\ num_claims summary_two =
       Z.of_nat <$>
         (gage_dates_counts [claim_nashville]
            (claim_points_rad [claim_nashville]) lon_two lat_two).2
  /\ length (dates summary_two) = length (num_claims summary_two)
  /\ total_claims (load_row summary_two) =
       Z.of_nat (sum_list (map (fun v => length (vertex_matches [claim_nashville] v))
                               (zip lon_two lat_two)))
  /\ num_events (load_row summary_two) =
       length (concat (map (vertex_pairs [claim_nashville]) (zip lon_two lat_two))).
Proof.
  assert (H1 : dates summary_two =
    (gage_dates_counts [claim_nashville] (claim_points_rad [claim_nashville])
                       lon_two lat_two).1) by (by rewrite join_two_vertices).
  assert (H2 : num_claims summary_two =
       Z.of_nat <$>
         (gage_dates_counts [claim_nashville]
            (claim_points_rad [claim_nashville]) lon_two lat_two).2)
    by (by rewrite join_two_vertices).
  split; [exact H1 |]. split; [exact H2 |].
  exact (loaded_totals_of_batch_lists [claim_nashville] lon_two lat_two summary_two
           H1 H2).
Defined.

Lemma metrics_agree_with_timeline_witness :
  from_option (Forall (fun s => length (dates s) = length (num_claims s)))
              True (Some table_ties)
  /\ length (create_claims_timeline
               (find_closest_gauges geodesic_known (load_gage_data <$> Some table_ties)
                                    target_lat target_lon (Fin 50))) =
     num_events_sum
       (find_closest_gauges geodesic_known (load_gage_data <$> Some table_ties)
                            target_lat target_lon (Fin 50))
  /\ foldr Z.add 0%Z
       (e_claims <$> create_claims_timeline
          (find_closest_gauges geodesic_known (load_gage_data <$> Some table_ties)
                               target_lat target_lon (Fin 50))) =
     total_claims_sum
       (find_closest_gauges geodesic_known (load_gage_data <$> Some table_ties)
                            target_lat target_lon (Fin 50)).
Proof.
  split; [exact table_ties_parallel |].
  exact (proj2 (metrics_agree_with_timeline geodesic_known (Some table_ties)
                  target_lat target_lon (Fin 50)) table_ties_parallel).
Defined.

End MoreExamples.
